(** * Verification of the edit-post plugin registry and the dataviews
      view-options menu

    Source files:
    - [src/edit-post/api/plugin.js]      (class [PluginRegistry])
    - [src/packages/dataviews/src/view-actions.tsx]
      ([ViewTypeMenu], [PageSizeMenu], [FieldsVisibilityMenu], [SortMenu])

    The JavaScript side is embedded over an explicit object heap, so that
    "the same object" means "the same reference"; the registry's two
    objects-used-as-maps are finite maps from property names to values. *)

From Stdlib Require Import ZArith Ascii String List.
From stdpp Require Import gmap strings list fin_maps pretty.

Open Scope string_scope.

(* ===================================================================== *)
(** * A small model of JavaScript values                                  *)
(* ===================================================================== *)

Module JS.

(** Heap locations of objects (plain objects, arrays, functions). *)
Abbreviation loc := positive.

(** Values.  Numbers are the integral ones: the code below never does
    arithmetic on them, it only asks [typeof], truthiness and [===]. *)
Inductive value : Type :=
| VUndefined
| VNull
| VBool (b : bool)
| VNum (n : Z)
| VStr (s : string)
| VRef (l : loc).

#[global] Instance value_eq_dec : EqDecision value.
Proof. solve_decision. Defined.

(** A heap object: its own data properties and whether it can be called
    (a function is an object that can). *)
Record object : Type := Object {
  callable : bool;
  props : gmap string value
}.

Abbreviation heap := (gmap loc object).

(** The object literal [{}]. *)
Definition empty_object : object := Object false ∅.

(** [typeof v].  The operator answers ['object'] for [null]. *)
Definition typeof (h : heap) (v : value) : string :=
  match v with
  | VUndefined => "undefined"
  | VNull => "object"
  | VBool _ => "boolean"
  | VNum _ => "number"
  | VStr _ => "string"
  | VRef l =>
      match h !! l with
      | Some o => if callable o then "function" else "object"
      | None => "object"
      end
  end.

(** ToBoolean: [undefined], [null], [false], [0] and the empty string are
    falsy, everything else (every object in particular) is truthy. *)
Definition truthy (v : value) : bool :=
  match v with
  | VUndefined | VNull => false
  | VBool b => b
  | VNum n => negb (n =? 0)%Z
  | VStr s => negb (String.eqb s "")
  | VRef _ => true
  end.

(** [a === b]: primitives by value, objects by reference. *)
Definition strict_eq (a b : value) : bool := bool_decide (a = b).

(** lodash [isFunction]. *)
Definition isFunction (h : heap) (v : value) : bool :=
  match v with
  | VRef l =>
      match h !! l with
      | Some o => callable o
      | None => false
      end
  | _ => false
  end.

(** [undefined] and [null]: a property access on them is a TypeError. *)
Definition nullish (v : value) : bool :=
  match v with
  | VUndefined | VNull => true
  | _ => false
  end.

(** [v.k] on a value that is not [nullish], for the property names read in
    this development ([name], [render], [uiType]): the own property of an
    object, or [undefined]; [undefined] on the other primitives. *)
Definition get_prop (h : heap) (v : value) (k : string) : value :=
  match v with
  | VRef l =>
      match h !! l with
      | Some o => default VUndefined (props o !! k)
      | None => VUndefined
      end
  | _ => VUndefined
  end.

(** [v.k = x] where [v] is an object reference.  The objects of this
    model are extensible and their properties writable: the assignment
    always succeeds (on a frozen, sealed or non-extensible object it would
    throw in the strict code of a class). *)
Definition set_prop (h : heap) (v : value) (k : string) (x : value) : heap :=
  match v with
  | VRef l =>
      match h !! l with
      | Some o => <[l := Object (callable o) (<[k := x]> (props o))]> h
      | None => h
      end
  | _ => h
  end.

(** Allocation of a new object. *)
Definition alloc (h : heap) (o : object) : loc * heap :=
  let l := fresh (dom h) in (l, <[l := o]> h).

(** How a call ends: with a value, or with a thrown error. *)
Inductive error : Type := TypeError | Error (msg : string).

Inductive completion : Type :=
| Return (v : value)
| Throw (e : error).

End JS.

(* ===================================================================== *)
(** * src/edit-post/api/plugin.js: class PluginRegistry                   *)
(* ===================================================================== *)

Module PluginRegistry.
Import JS.

(** The instance state: the two maps set up by the constructor, together
    with the object heap they point into and what [console.error] has
    printed so far (oldest first). *)
Record state : Type := State {
  heap_of : heap;
  plugins : gmap string value;
  pluginUIComponents : gmap string value;
  console : list string
}.

(** [constructor()]: [this.plugins = {}; this.pluginUIComponents = {}]. *)
Definition constructor (h : heap) (out : list string) : state :=
  State h ∅ ∅ out.

Definition console_error (msg : string) (st : state) : state :=
  State (heap_of st) (plugins st) (pluginUIComponents st) (console st ++ [msg]).

Definition with_heap (h : heap) (st : state) : state :=
  State h (plugins st) (pluginUIComponents st) (console st).

(** [this.plugins[ k ]] and [this.pluginUIComponents[ k ]]: a missing own
    property reads as [undefined].  The maps hold own properties only;
    keys that name a member of [Object.prototype] ([constructor],
    [toString], ...) are outside this model. *)
Definition read (m : gmap string value) (k : string) : value :=
  default VUndefined (m !! k).

(** The names of the members a plain object inherits from
    [Object.prototype].  Both maps are plain objects, so in the code a read
    of such a key with no own entry finds the inherited member, and an
    assignment to [__proto__] replaces the prototype instead of adding an
    entry; [read] and the insertions below are the code's behaviour on
    every other key. *)
Definition Object_prototype_members : list string :=
  [ "constructor"; "hasOwnProperty"; "isPrototypeOf"; "propertyIsEnumerable";
    "toLocaleString"; "toString"; "valueOf"; "__proto__";
    "__defineGetter__"; "__defineSetter__";
    "__lookupGetter__"; "__lookupSetter__" ].

Definition inherited_name (k : string) : bool :=
  existsb (String.eqb k) Object_prototype_members.

(** ** The regular expression [/^[a-z][a-z0-9-]*$/] *)

Definition is_lower (c : ascii) : bool :=
  let n := nat_of_ascii c in (97 <=? n)%nat && (n <=? 122)%nat.

Definition is_digit (c : ascii) : bool :=
  let n := nat_of_ascii c in (48 <=? n)%nat && (n <=? 57)%nat.

Definition is_dash (c : ascii) : bool := (nat_of_ascii c =? 45)%nat.

Fixpoint all_chars (p : ascii -> bool) (s : string) : bool :=
  match s with
  | EmptyString => true
  | String c r => p c && all_chars p r
  end.

(** [/^[a-z][a-z0-9-]*$/.test( s )].  Without the [m] flag [$] is the
    end of the input only.  The pattern accepts ASCII characters only, so
    it does not matter that a string is a sequence of bytes here and of
    UTF-16 code units in JavaScript. *)
Definition name_pattern_test (s : string) : bool :=
  match s with
  | EmptyString => false
  | String c r =>
      is_lower c && all_chars (fun d => is_lower d || is_digit d || is_dash d) r
  end.

(** ** Console messages *)

Definition dquote : string := String (ascii_of_nat 34) EmptyString.

Definition msg_no_settings : string := "No settings object provided!".
Definition msg_name_type : string := "Plugin names must be strings.".
Definition msg_name_pattern : string :=
  "Plugin names must include only lowercase alphanumeric characters or dashes, and start with a letter. Example: "
  ++ dquote ++ "my-plugin" ++ dquote ++ ".".
Definition msg_duplicate (name : string) : string :=
  "Plugin " ++ dquote ++ name ++ dquote ++ " is already registered.".
Definition msg_render : string :=
  "The " ++ dquote ++ "render" ++ dquote
  ++ " property must be specified and must be a valid function.".

Section Methods.

(** [applyFilters( hookName, value, ...args )] of [@wordpress/hooks]: the
    callbacks hooked on [hookName] are third-party code; they may allocate
    and mutate heap objects and hand back any value.  They are taken not
    to call back into the registry. *)
Variable applyFilters : string -> value -> value -> heap -> heap * value.

(** ToString of a property key that is not already a string. *)
Variable ToString : heap -> value -> string.

Definition ToPropertyKey (h : heap) (k : value) : string :=
  match k with
  | VStr s => s
  | _ => ToString h k
  end.

(** Lines 54-58: the duplicate check only prints. *)
Definition check_duplicate (name : string) (st : state) : state :=
  if truthy (read (plugins st) name)
  then console_error (msg_duplicate name) st
  else st.

(** Line 66, [settings.sidebar = {}]: a new empty object is allocated and
    written to the [sidebar] property of the settings object itself. *)
Definition reset_sidebar (h : heap) (settings : value) : heap :=
  let '(sidebar, h1) := alloc h empty_object in
  set_prop h1 settings "sidebar" (VRef sidebar).

(** [registerPlugin( settings )], lines 35-71. *)
Definition registerPlugin (settings : value) (st : state) : completion * state :=
  if negb (String.eqb (typeof (heap_of st) settings) "object") then
    (Return VNull, console_error msg_no_settings st)
  else if nullish settings then
    (* typeof null is 'object': reading settings.name throws *)
    (Throw TypeError, st)
  else
    match get_prop (heap_of st) settings "name" with
    | VStr name =>
        if negb (name_pattern_test name) then
          (Return VNull, console_error msg_name_pattern st)
        else
          let st1 := check_duplicate name st in
          if negb (isFunction (heap_of st1) (get_prop (heap_of st1) settings "render")) then
            (Return VNull, console_error msg_render st1)
          else
            let h2 := reset_sidebar (heap_of st1) settings in
            (* settings = applyFilters( 'editPost.registerPlugin', settings, settings.name ); *)
            let '(h3, settings') :=
              applyFilters "editPost.registerPlugin" settings
                           (get_prop h2 settings "name") h2 in
            (* return this.plugins[ settings.name ] = settings; *)
            if nullish settings' then
              (Throw TypeError, with_heap h3 st1)
            else
              let key := ToPropertyKey h3 (get_prop h3 settings' "name") in
              (Return settings',
               State h3 (<[key := settings']> (plugins st1))
                     (pluginUIComponents st1) (console st1))
    | _ => (Return VNull, console_error msg_name_type st)
    end.

(** [registerUIComponent( pluginName, uiNamespacedName, uiType )],
    lines 80-85.  The identifier is the property key, a string; the method
    has no [return].  (For the key [__proto__] see
    [Object_prototype_members].) *)
Definition registerUIComponent (pluginName : value) (uiNamespacedName : string)
    (uiType : value) (st : state) : state :=
  let '(l, h1) :=
    alloc (heap_of st)
          (Object false (<["uiType" := uiType]> (<["pluginName" := pluginName]> ∅))) in
  State h1 (plugins st) (<[uiNamespacedName := VRef l]> (pluginUIComponents st))
        (console st).

(** [getRegisteredUIComponent( uiNamespacedName, uiType = null )],
    lines 95-104.  An omitted or [undefined] argument takes the default
    [null]; [uiComponent.uiType] is only read behind [uiComponent &&], so
    never on [null]. *)
Definition getRegisteredUIComponent (uiNamespacedName : string) (uiType : value)
    (st : state) : value :=
  let uiType := match uiType with VUndefined => VNull | _ => uiType end in
  let uiComponent :=
    let v := read (pluginUIComponents st) uiNamespacedName in
    if truthy v then v else VNull in
  if truthy uiType then
    if truthy uiComponent
       && strict_eq (get_prop (heap_of st) uiComponent "uiType") uiType
    then uiComponent
    else VNull
  else uiComponent.

End Methods.

(** ** What the validation of lines 36-64 accepts *)

(** [settings] is an object whose [name] is the string [name], matching
    the pattern, and whose [render] is a function. *)
Definition valid_settings (h : heap) (settings : value) (name : string) : Prop :=
  typeof h settings = "object" /\
  nullish settings = false /\
  get_prop h settings "name" = VStr name /\
  name_pattern_test name = true /\
  isFunction h (get_prop h settings "render") = true.

(** [settings] fails one of the four checks: it is not of type object; or
    its [name] is not a string; or the name does not match the pattern; or
    its [render] is not a function. *)
Definition invalid_settings (h : heap) (settings : value) : Prop :=
  typeof h settings <> "object" \/
  typeof h (get_prop h settings "name") <> "string" \/
  (exists name, get_prop h settings "name" = VStr name /\
                name_pattern_test name = false) \/
  isFunction h (get_prop h settings "render") = false.

(** Every entry of the UI-component map is an object reference. *)
Definition components_are_references (st : state) : Prop :=
  forall k v, pluginUIComponents st !! k = Some v -> exists l, v = VRef l.

(** ** Sample registrations, used to exercise the statements below *)

(** No callback is hooked: [applyFilters] hands its value back. *)
Definition no_filters : string -> value -> value -> heap -> heap * value :=
  fun _hook v _arg h => (h, v).

(** ToString on the primitives; objects print as plain objects do. *)
Definition ToString_default (h : heap) (v : value) : string :=
  match v with
  | VUndefined => "undefined"
  | VNull => "null"
  | VBool true => "true"
  | VBool false => "false"
  | VNum n => pretty n
  | VStr s => s
  | VRef _ => "[object Object]"
  end.

(** Two settings objects named [my-plugin] (at 1 and 3) sharing a render
    function (at 2), and one with a capitalised name (at 4). *)
Definition sample_heap : heap :=
  <[1%positive := Object false (<["name" := VStr "my-plugin"]> (<["render" := VRef 2]> ∅))]>
  (<[2%positive := Object true ∅]>
  (<[3%positive := Object false (<["name" := VStr "my-plugin"]> (<["render" := VRef 2]> ∅))]>
  (<[4%positive := Object false (<["name" := VStr "My-Plugin"]> (<["render" := VRef 2]> ∅))]>
   ∅))).

Definition fresh_registry : state := constructor sample_heap [].

(** The registry once the object at 3 has been registered. *)
Definition registry_with_plugin : state :=
  State sample_heap (<["my-plugin" := VRef 3]> ∅) ∅ [].


End PluginRegistry.

(* ===================================================================== *)
(** * src/packages/dataviews/src/view-actions.tsx                         *)
(* ===================================================================== *)

Module ViewActions.
Import JS.

(** ** The types of [./types] and [./layouts], as far as this file uses them *)

(** Modelled from the spec: the type of [view.sort] ([./types] is not
    among the sources), the spec's "sort field/direction". *)
Record Sort : Type := { field : string; direction : string }.

(** Modelled from the spec: the [View] type of [./types], the spec's
    view-configuration record (layout type, page size, sort
    field/direction, hidden-field list).  It has the fields the menus read
    or write, and [rest] for all the others (search, filters, ...), which
    the menus only copy.  [layout] is an object of optional properties,
    [{}] being the empty one; [perPage], [page], [sort] and [hiddenFields]
    may be [undefined], as the optional chaining in the menus allows. *)
Record View (Rest : Type) : Type := {
  type : string;
  layout : gmap string value;
  perPage : option Z;
  page : option Z;
  sort : option Sort;
  hiddenFields : option (list string);
  rest : Rest
}.
Arguments type {Rest} _.
Arguments layout {Rest} _.
Arguments perPage {Rest} _.
Arguments page {Rest} _.
Arguments sort {Rest} _.
Arguments hiddenFields {Rest} _.
Arguments rest {Rest} _.

(** Modelled from the spec: the [NormalizedField] type of [./types], with
    the properties the menus read.  [enableHiding] and [enableSorting] are
    compared with [false] only, so an absent flag ([None]) counts as
    enabled. *)
Record NormalizedField : Type := {
  id : string;
  header : string;
  enableHiding : option bool;
  enableSorting : option bool
}.

(** Modelled from the spec: an entry of [VIEW_LAYOUTS] ([./layouts]),
    with the two properties the layout menu reads. *)
Record ViewLayout : Type := { layout_type : string; label : string }.

(** [x !== false]. *)
Definition not_false (x : option bool) : bool :=
  match x with
  | Some false => false
  | _ => true
  end.

(** [array.includes( x )] on strings. *)
Definition includes (l : list string) (x : string) : bool :=
  existsb (String.eqb x) l.

Definition PAGE_SIZE_VALUES : list Z := [10; 20; 50; 100]%Z.

Section Components.

Context {Rest : Type}.

(** The state the host keeps, and the callback it hands to the menus. *)
Context {World : Type}.
Variable onChangeView : View Rest -> World -> World.

(** [VIEW_LAYOUTS] of [./layouts]; [SORTING_DIRECTIONS] and [sortLabels]
    of [./constants]. *)
Variable VIEW_LAYOUTS : list ViewLayout.
Variable SORTING_DIRECTIONS : list string.
Variable sortLabels : string -> string.

(** How an event handler ends: normally, or by throwing. *)
Inductive outcome : Type :=
| Done (w : World)
| Thrown (e : error) (w : World).

(** A radio or checkbox item as rendered: its key, label, whether it is
    checked, and what selecting it does (the [onChange] handler run on the
    change event of that item, whose [target.value] is the item's value). *)
Record Item : Type := {
  item_key : string;
  item_label : string;
  item_checked : bool;
  item_select : World -> outcome
}.

(** *** ViewTypeMenu, lines 64-123 *)

Definition availableViews (supportedLayouts : option (list string)) : list ViewLayout :=
  match supportedLayouts with
  | Some supported => filter (fun v => includes supported (layout_type v) = true) VIEW_LAYOUTS
  | None => VIEW_LAYOUTS
  end.

(** The [onChange] handler of lines 101-113 on [e.target.value]. *)
Definition ViewTypeMenu_onChange (view : View Rest) (value : string)
    (w : World) : outcome :=
  if String.eqb value "list" || String.eqb value "grid" || String.eqb value "table"
  then
    Done (onChangeView
            {| type := value;
               layout := ∅;
               perPage := perPage view;
               page := page view;
               sort := sort view;
               hiddenFields := hiddenFields view;
               rest := rest view |} w)
  else Thrown (Error "Invalid dataview") w.

(** [None] is [return null]; otherwise the trigger's suffix (the label of
    the active layout, if any) and the radio items. *)
Definition ViewTypeMenu (view : View Rest) (supportedLayouts : option (list string))
    : option (option string * list Item) :=
  let _availableViews := availableViews supportedLayouts in
  if (length _availableViews =? 1)%nat then None
  else
    let activeView :=
      find (fun v => String.eqb (type view) (layout_type v)) _availableViews in
    Some (label <$> activeView,
          map (fun availableView =>
                 {| item_key := layout_type availableView;
                    item_label := label availableView;
                    item_checked := String.eqb (layout_type availableView) (type view);
                    item_select := ViewTypeMenu_onChange view (layout_type availableView) |})
              _availableViews).

(** *** PageSizeMenu, lines 125-162 *)

Definition PageSizeMenu_onChange (view : View Rest) (size : Z) (w : World) : outcome :=
  Done (onChangeView
          {| type := type view;
             layout := layout view;
             perPage := Some size;
             page := Some 1%Z;
             sort := sort view;
             hiddenFields := hiddenFields view;
             rest := rest view |} w).

(** The trigger's suffix ([view.perPage]) and the radio items. *)
Definition PageSizeMenu (view : View Rest) : option Z * list Item :=
  (perPage view,
   map (fun size =>
          {| item_key := pretty size;
             item_label := pretty size;
             item_checked := bool_decide (perPage view = Some size);
             item_select := PageSizeMenu_onChange view size |})
       PAGE_SIZE_VALUES).

(** *** FieldsVisibilityMenu, lines 164-216 *)

Definition hidableFields (fields : list NormalizedField) (view : View Rest)
    : list NormalizedField :=
  filter (fun field =>
            not_false (enableHiding field)
            && negb (strict_eq (VStr (id field))
                               (default VUndefined (layout view !! "mediaField")))
            = true)
         fields.

(** [view.hiddenFields?.includes( id )]: [undefined] when there is no
    list, which is falsy. *)
Definition is_hidden (view : View Rest) (fid : string) : bool :=
  match hiddenFields view with
  | Some hidden => includes hidden fid
  | None => false
  end.

(** Lines 195-204, the new [hiddenFields]. *)
Definition toggled_hiddenFields (view : View Rest) (fid : string) : list string :=
  match hiddenFields view with
  | Some hidden =>
      if includes hidden fid
      then filter (fun i => negb (String.eqb i fid) = true) hidden
      else hidden ++ [fid]
  | None => [] ++ [fid]
  end.

(** The record of lines 193-205. *)
Definition toggle_field (view : View Rest) (fid : string) : View Rest :=
  {| type := type view;
     layout := layout view;
     perPage := perPage view;
     page := page view;
     sort := sort view;
     hiddenFields := Some (toggled_hiddenFields view fid);
     rest := rest view |}.

Definition FieldsVisibilityMenu_onChange (view : View Rest) (field : NormalizedField)
    (w : World) : outcome :=
  Done (onChangeView (toggle_field view (id field)) w).

Definition FieldsVisibilityMenu (view : View Rest) (fields : list NormalizedField)
    : option (list Item) :=
  let hidable := hidableFields fields view in
  if (length hidable =? 0)%nat then None
  else
    Some (map (fun field =>
                 {| item_key := id field;
                    item_label := header field;
                    item_checked := negb (is_hidden view (id field));
                    item_select := FieldsVisibilityMenu_onChange view field |})
              hidable).

(** *** SortMenu, lines 218-304 *)

Definition sortableFields (fields : list NormalizedField) : list NormalizedField :=
  filter (fun field => not_false (enableSorting field) = true) fields.

Definition SortMenu_onChange (view : View Rest) (field : NormalizedField)
    (direction : string) (w : World) : outcome :=
  Done (onChangeView
          {| type := type view;
             layout := layout view;
             perPage := perPage view;
             page := page view;
             sort := Some {| ViewActions.field := id field;
                             ViewActions.direction := direction |};
             hiddenFields := hiddenFields view;
             rest := rest view |} w).

(** A submenu of the sort menu: one per sortable field. *)
Record SubMenu : Type := {
  sub_key : string;
  sub_label : string;
  sub_items : list Item
}.

(** [None] is [return null]; otherwise the trigger's suffix (the header
    of the field currently sorted by, if any) and one submenu per sortable
    field with one radio item per direction. *)
Definition SortMenu (fields : list NormalizedField) (view : View Rest)
    : option (option string * list SubMenu) :=
  let sortable := sortableFields fields in
  if (length sortable =? 0)%nat then None
  else
    let currentSortedField :=
      find (fun f => bool_decide (Some (id f) = ViewActions.field <$> sort view)) fields in
    Some (header <$> currentSortedField,
          map (fun f =>
                 let sortedDirection := ViewActions.direction <$> sort view in
                 {| sub_key := id f;
                    sub_label := header f;
                    sub_items :=
                      map (fun direction =>
                             let isChecked :=
                               match currentSortedField with
                               | Some current =>
                                   bool_decide (sortedDirection = Some direction)
                                   && String.eqb (id f) (id current)
                               | None => false
                               end in
                             {| item_key := id f ++ "-" ++ direction;
                                item_label := sortLabels direction;
                                item_checked := isChecked;
                                item_select := SortMenu_onChange view f direction |})
                          SORTING_DIRECTIONS |})
              sortable).

End Components.

(** ** Which fields two view records may differ in *)

Section Frames.

Context {Rest : Type}.

Definition same_but_sort (v v' : View Rest) : Prop :=
  type v' = type v /\ layout v' = layout v /\ perPage v' = perPage v /\
  page v' = page v /\ hiddenFields v' = hiddenFields v /\ rest v' = rest v.

Definition same_but_hiddenFields (v v' : View Rest) : Prop :=
  type v' = type v /\ layout v' = layout v /\ perPage v' = perPage v /\
  page v' = page v /\ sort v' = sort v /\ rest v' = rest v.

Definition same_but_paging (v v' : View Rest) : Prop :=
  type v' = type v /\ layout v' = layout v /\ sort v' = sort v /\
  hiddenFields v' = hiddenFields v /\ rest v' = rest v.

Definition same_but_layout (v v' : View Rest) : Prop :=
  perPage v' = perPage v /\ page v' = page v /\ sort v' = sort v /\
  hiddenFields v' = hiddenFields v /\ rest v' = rest v.

(** The ids a view hides; none when there is no list. *)
Definition hidden_ids (v : View Rest) : list string := default [] (hiddenFields v).

End Frames.

(** The three layout types the handler of [ViewTypeMenu] accepts. *)
Definition LAYOUT_TYPES : list string := ["list"; "grid"; "table"].

(** A sample view: a table, second page of 20, hiding two fields. *)
Definition sample_view : View unit :=
  {| type := "table";
     layout := ∅;
     perPage := Some 20%Z;
     page := Some 2%Z;
     sort := Some {| field := "title"; direction := "asc" |};
     hiddenFields := Some ["author"; "date"];
     rest := tt |}.

(** A host that records every view it is handed, newest first. *)
Definition record_view : View unit -> list (View unit) -> list (View unit) := cons.

Definition sample_layouts : list ViewLayout :=
  [ {| layout_type := "table"; label := "Table" |};
    {| layout_type := "grid"; label := "Grid" |};
    {| layout_type := "list"; label := "List" |} ].

Definition sample_fields : list NormalizedField :=
  [ {| id := "title"; header := "Title";
       enableHiding := Some false; enableSorting := Some true |};
    {| id := "author"; header := "Author";
       enableHiding := Some true; enableSorting := Some true |};
    {| id := "image"; header := "Image";
       enableHiding := Some true; enableSorting := Some false |};
    {| id := "date"; header := "Date";
       enableHiding := None; enableSorting := None |} ].

(** A grid view showing the [image] field as its media. *)
Definition sample_grid_view : View unit :=
  {| type := "grid";
     layout := <["mediaField" := VStr "image"]> ∅;
     perPage := Some 20%Z;
     page := Some 2%Z;
     sort := None;
     hiddenFields := None;
     rest := tt |}.

End ViewActions.

(* ===================================================================== *)
(** * src/edit-post/api/plugin.js: the static members and PluginArea      *)
(* ===================================================================== *)

Module PluginStatics.
Import JS PluginRegistry.

(** ** getInstance and resetInstance, lines 106-116 *)

(** A registry object: the two maps its constructor sets up. *)
Record registry : Type := Registry {
  registry_plugins : gmap string value;
  registry_components : gmap string value
}.

(** The class: the registry objects its static methods have created so
    far, by reference, and the static property [instance] ([None] while it
    is [undefined]). *)
Record class : Type := Class {
  registries : gmap loc registry;
  instance : option loc
}.

(** [new PluginRegistry()]. *)
Definition new_PluginRegistry (c : class) : loc * gmap loc registry :=
  let l := fresh (dom (registries c)) in
  (l, <[l := Registry ∅ ∅]> (registries c)).

(** [static getInstance()]: a registry reference is truthy, so a new
    registry is made only while [instance] is [undefined]. *)
Definition getInstance (c : class) : loc * class :=
  match instance c with
  | Some l => (l, c)
  | None =>
      let '(l, rs) := new_PluginRegistry c in
      (l, Class rs (Some l))
  end.

(** [static resetInstance()]. *)
Definition resetInstance (c : class) : loc * class :=
  let '(l, rs) := new_PluginRegistry c in
  (l, Class rs (Some l)).

(** The instance state of a registry object, in a given heap and with a
    given console. *)
Definition registry_state (h : heap) (out : list string) (r : registry) : state :=
  State h (registry_plugins r) (registry_components r) out.

(** ** PluginArea.render, lines 123-141 *)

(** The [value] prop of a [PluginContextProvider], lines 131-134. *)
Record ContextValue : Type := {
  context_registerUIComponent : string -> value -> state -> state;
  namespace : value
}.

(** A [PluginContextProvider] element as lines 131-137 build it: its [key]
    and [value] props.  Its children, [plugin.render()], are the plugin's
    own output and are not represented. *)
Record Provider : Type := {
  provider_key : value;
  provider_value : ContextValue
}.

(** The provider built for one entry [plugin] of [plugins] by the callback
    of lines 128-137; [registerUIComponent.bind( pluginRegistry,
    plugin.name )] fixes the first argument.  [plugin] is not [undefined]
    or [null]. *)
Definition provider_of (h : heap) (plugin : value) : Provider :=
  let boundRegisterUIComponent := registerUIComponent (get_prop h plugin "name") in
  {| provider_key := get_prop h plugin "name";
     provider_value :=
       {| context_registerUIComponent := boundRegisterUIComponent;
          namespace := get_prop h plugin "name" |} |}.

(** Every entry of the plugins map can have its properties read: none is
    [undefined] or [null]. *)
Definition plugins_are_readable (st : state) : Prop :=
  forall k v, plugins st !! k = Some v -> nullish v = false.

End PluginStatics.

(* ===================================================================== *)
(** * src/packages/dataviews/src/view-actions.tsx: the dropdown as a whole *)
(* ===================================================================== *)

Module ViewActionsTop.
Import JS ViewActions.

Section Dropdown.

Context {Rest World : Type}.
Variable onChangeView : View Rest -> World -> World.
Variable VIEW_LAYOUTS : list ViewLayout.
Variable SORTING_DIRECTIONS : list string.
Variable sortLabels : string -> string.

(** The children of the [DropdownMenuGroup] of lines 322-339, in their
    order; a menu that returned [null] is [None]. *)
Record Dropdown : Type := {
  view_type_menu : option (option string * list (@Item World));
  sort_menu : option (option string * list (@SubMenu World));
  fields_visibility_menu : option (list (@Item World));
  page_size_menu : option Z * list (@Item World)
}.

(** [_ViewActions], lines 306-342: every menu gets the same [view] and
    [onChangeView]. *)
Definition _ViewActions (fields : list NormalizedField) (view : View Rest)
    (supportedLayouts : option (list string)) : Dropdown :=
  {| view_type_menu := ViewTypeMenu onChangeView VIEW_LAYOUTS view supportedLayouts;
     sort_menu := SortMenu onChangeView SORTING_DIRECTIONS sortLabels fields view;
     fields_visibility_menu := FieldsVisibilityMenu onChangeView view fields;
     page_size_menu := PageSizeMenu onChangeView view |}.

End Dropdown.

(** A host whose state is the current view and whose [onChangeView] keeps
    the view it is handed, so that the menus are rendered next from that
    view. *)
Definition keep_view {Rest : Type} (next _current : View Rest) : View Rest := next.

End ViewActionsTop.

(* ===================================================================== *)
(** * Properties of the plugin registry                                   *)
(* ===================================================================== *)

Module PluginRegistryFacts.
Import JS PluginRegistry.

(** ** Values and the heap *)

Lemma typeof_string_inv h v : typeof h v = "string" -> exists s, v = VStr s.
Proof.
  destruct v as [| | b | n | s | l]; simpl; try discriminate; eauto.
  destruct (h !! l) as [o|]; [destruct (callable o)|]; discriminate.
Qed.

Lemma typeof_object_inv h v :
  typeof h v = "object" -> v = VNull \/ exists l, v = VRef l.
Proof. destruct v; simpl; try discriminate; eauto. Qed.

Lemma typeof_object_ref h l :
  typeof h (VRef l) = "object" ->
  h !! l = None \/ exists o, h !! l = Some o /\ callable o = false.
Proof.
  simpl. destruct (h !! l) as [o|]; [|auto].
  destruct (callable o) eqn:E; [discriminate|]. right. eauto.
Qed.

Lemma alloc_fresh (h : heap) o : h !! (alloc h o).1 = None.
Proof. simpl. apply not_elem_of_dom, is_fresh. Qed.

Lemma alloc_heap (h : heap) o : (alloc h o).2 = <[(alloc h o).1 := o]> h.
Proof. reflexivity. Qed.

Lemma alloc_lookup_old (h : heap) o l x :
  h !! l = Some x -> (alloc h o).2 !! l = Some x.
Proof.
  intros Hl. rewrite alloc_heap, lookup_insert_ne; [done|].
  intros E. pose proof (alloc_fresh h o) as F. rewrite E in F. congruence.
Qed.

Lemma get_prop_alloc_old (h : heap) o l x k :
  h !! l = Some x -> get_prop (alloc h o).2 (VRef l) k = get_prop h (VRef l) k.
Proof.
  intros Hl. unfold get_prop.
  change (<[fresh (dom h):=o]> h) with (alloc h o).2.
  by rewrite (alloc_lookup_old h o l x Hl), Hl.
Qed.

Lemma get_prop_set_prop_ne h l k k' x :
  k <> k' -> get_prop (set_prop h (VRef l) k x) (VRef l) k' = get_prop h (VRef l) k'.
Proof.
  intros Hk. unfold get_prop, set_prop.
  destruct (h !! l) as [o|] eqn:E; [|by rewrite E].
  rewrite lookup_insert_eq. simpl. by rewrite lookup_insert_ne.
Qed.

Lemma get_prop_set_prop_eq h l o k x :
  h !! l = Some o -> get_prop (set_prop h (VRef l) k x) (VRef l) k = x.
Proof.
  intros E. unfold get_prop, set_prop. rewrite E, lookup_insert_eq. simpl.
  by rewrite lookup_insert_eq.
Qed.

(** Line 66 leaves every property of the settings object but [sidebar]
    as it was. *)
Lemma get_prop_reset_sidebar h l o k :
  h !! l = Some o -> k <> "sidebar" ->
  get_prop (reset_sidebar h (VRef l)) (VRef l) k = get_prop h (VRef l) k.
Proof.
  intros Hl Hk. unfold reset_sidebar.
  destruct (alloc h empty_object) as [sb h1] eqn:Ea.
  rewrite get_prop_set_prop_ne by congruence.
  replace h1 with (alloc h empty_object).2 by (by rewrite Ea).
  by apply get_prop_alloc_old with o.
Qed.

(** After line 66 the [sidebar] property is a reference to an object that
    did not exist before and is empty. *)
Lemma reset_sidebar_sidebar h l o :
  h !! l = Some o ->
  exists sb, get_prop (reset_sidebar h (VRef l)) (VRef l) "sidebar" = VRef sb
             /\ h !! sb = None
             /\ reset_sidebar h (VRef l) !! sb = Some empty_object.
Proof.
  intros Hl. exists (alloc h empty_object).1.
  pose proof (alloc_fresh h empty_object) as Hf.
  unfold reset_sidebar. simpl in *. split; [|split; [done|]].
  - eapply get_prop_set_prop_eq. rewrite lookup_insert_ne; [done|congruence].
  - unfold set_prop. rewrite lookup_insert_ne by congruence. rewrite Hl.
    rewrite lookup_insert_ne by congruence. by rewrite lookup_insert_eq.
Qed.

(** ** The name pattern and the sample registrations *)

Example name_pattern_accepts :
  map name_pattern_test ["my-plugin"; "a"; "plugin-2"; "x--"]
  = [true; true; true; true].
Proof. reflexivity. Qed.

Example name_pattern_rejects :
  map name_pattern_test [""; "My-Plugin"; "2nd"; "-a"; "my_plugin"; "my plugin"; "a.b"]
  = [false; false; false; false; false; false; false].
Proof. reflexivity. Qed.

Example registerPlugin_sample :
  PluginRegistry.registerPlugin no_filters ToString_default (VRef 1) fresh_registry
  = (Return (VRef 1),
     State (<[1%positive :=
                Object false (<["sidebar" := VRef 5]>
                             (<["name" := VStr "my-plugin"]>
                             (<["render" := VRef 2]> ∅)))]>
            (<[5%positive := empty_object]> sample_heap))
           (<["my-plugin" := VRef 1]> ∅) ∅ []).
Proof. vm_compute. reflexivity. Qed.

Example registerPlugin_sample_rejections :
  (PluginRegistry.registerPlugin no_filters ToString_default VUndefined fresh_registry).1
    = Return VNull /\
  (PluginRegistry.registerPlugin no_filters ToString_default (VStr "my-plugin") fresh_registry).1
    = Return VNull /\
  (PluginRegistry.registerPlugin no_filters ToString_default (VRef 2) fresh_registry)
    = (Return VNull, console_error msg_no_settings fresh_registry) /\
  (PluginRegistry.registerPlugin no_filters ToString_default (VRef 4) fresh_registry)
    = (Return VNull, console_error msg_name_pattern fresh_registry).
Proof. vm_compute. split_and!; reflexivity. Qed.

(** ** registerPlugin *)

Section RegisterPlugin.

Variable applyFilters : string -> value -> value -> heap -> heap * value.
Variable ToString : heap -> value -> string.

Abbreviation registerPlugin := (PluginRegistry.registerPlugin applyFilters ToString).

Lemma check_duplicate_frame name st :
  heap_of (check_duplicate name st) = heap_of st /\
  plugins (check_duplicate name st) = plugins st /\
  pluginUIComponents (check_duplicate name st) = pluginUIComponents st.
Proof. unfold check_duplicate. by destruct (truthy _). Qed.

Lemma valid_settings_ref h settings name :
  valid_settings h settings name ->
  exists l o, settings = VRef l /\ h !! l = Some o /\ callable o = false.
Proof.
  intros (Ht & Hn & Hname & _ & _).
  destruct (typeof_object_inv _ _ Ht) as [->|[l ->]]; [discriminate|].
  destruct (typeof_object_ref _ _ Ht) as [E|(o & E & Hc)]; [|eauto].
  simpl in Hname. rewrite E in Hname. discriminate.
Qed.

(** What [registerPlugin] computes on settings that pass validation: the
    duplicate check prints or not, the sidebar is reset, the filters run,
    and their result is stored and returned. *)
Lemma registerPlugin_valid_eq settings name st :
  valid_settings (heap_of st) settings name ->
  registerPlugin settings st =
    let st1 := check_duplicate name st in
    let '(h3, r) := applyFilters "editPost.registerPlugin" settings (VStr name)
                                 (reset_sidebar (heap_of st) settings) in
    if nullish r then (Throw TypeError, with_heap h3 st1)
    else (Return r,
          State h3 (<[ToPropertyKey ToString h3 (get_prop h3 r "name") := r]> (plugins st))
                (pluginUIComponents st) (console st1)).
Proof.
  intros Hv.
  destruct (valid_settings_ref _ _ _ Hv) as (l & o & -> & Hl & Hc).
  destruct Hv as (Ht & Hn & Hname & Hpat & Hfun).
  destruct (check_duplicate_frame name st) as (Eh & Ep & Eu).
  unfold PluginRegistry.registerPlugin.
  rewrite Ht. simpl String.eqb. cbn [negb nullish].
  rewrite Hname, Hpat. cbn [negb].
  rewrite Eh, Hfun. cbn [negb].
  rewrite (get_prop_reset_sidebar _ _ _ "name" Hl) by discriminate.
  rewrite Hname, Ep, Eu. reflexivity.
Qed.

(** C3: for every settings object that passes validation, and every filter
    chain that hands back an object [r], [registerPlugin] returns [r] and
    has stored that very reference under the key given by [r.name]; the
    other entries and the UI-component map are untouched.  When the chain
    passes the settings through (as it does when nothing is hooked), the
    returned and stored reference is the argument itself, under its own
    name. *)
Theorem registerPlugin_stores_and_returns settings name st h' r :
  valid_settings (heap_of st) settings name ->
  applyFilters "editPost.registerPlugin" settings (VStr name)
               (reset_sidebar (heap_of st) settings) = (h', r) ->
  nullish r = false ->
  let key := ToPropertyKey ToString h' (get_prop h' r "name") in
  let out := registerPlugin settings st in
  out.1 = Return r /\
  plugins out.2 !! key = Some r /\
  (forall k, k <> key -> plugins out.2 !! k = plugins st !! k) /\
  pluginUIComponents out.2 = pluginUIComponents st /\
  heap_of out.2 = h' /\
  (h' = reset_sidebar (heap_of st) settings -> r = settings ->
   key = name /\ out.1 = Return settings /\ plugins out.2 !! name = Some settings).
Proof.
  intros Hv Hf Hr key out. subst out.
  rewrite (registerPlugin_valid_eq _ _ _ Hv). cbv zeta. rewrite Hf, Hr. cbn [fst snd plugins pluginUIComponents heap_of].
  fold key.
  assert (Hpass : h' = reset_sidebar (heap_of st) settings -> r = settings -> key = name).
  { intros -> ->. subst key.
    destruct (valid_settings_ref _ _ _ Hv) as (l & o & -> & Hl & _).
    rewrite (get_prop_reset_sidebar _ _ _ "name" Hl) by discriminate.
    by destruct Hv as (_ & _ & -> & _). }
  split_and!; try reflexivity.
  - apply lookup_insert_eq.
  - intros k Hk. by rewrite lookup_insert_ne.
  - intros Eh Er. rewrite <- (Hpass Eh Er), Er.
    split_and!; [reflexivity.. | apply lookup_insert_eq].
Qed.

(** C1: when the name is already registered, the call prints the
    duplicate-name error and then carries on exactly as for a new name: it
    returns the (filtered) settings and stores them, replacing the entry
    under their name. *)
Theorem registerPlugin_duplicate_proceeds settings name prev st h' r :
  valid_settings (heap_of st) settings name ->
  plugins st !! name = Some prev ->
  truthy prev = true ->
  applyFilters "editPost.registerPlugin" settings (VStr name)
               (reset_sidebar (heap_of st) settings) = (h', r) ->
  nullish r = false ->
  let key := ToPropertyKey ToString h' (get_prop h' r "name") in
  let out := registerPlugin settings st in
  console out.2 = (console st ++ [msg_duplicate name])%list /\
  out.1 = Return r /\
  plugins out.2 = <[key := r]> (plugins st) /\
  (h' = reset_sidebar (heap_of st) settings -> r = settings ->
   out.1 = Return settings /\
   plugins out.2 = <[name := settings]> (plugins st) /\
   plugins out.2 !! name = Some settings).
Proof.
  intros Hv Hprev Htr Hf Hr key out. subst out.
  rewrite (registerPlugin_valid_eq _ _ _ Hv). cbv zeta. rewrite Hf, Hr.
  cbn [fst snd plugins console]. fold key.
  assert (Hdup : check_duplicate name st = console_error (msg_duplicate name) st).
  { unfold check_duplicate, read. by rewrite Hprev; simpl; rewrite Htr. }
  rewrite Hdup. simpl console.
  split_and!; try reflexivity.
  intros -> ->.
  assert (Hkey : key = name).
  { subst key.
    destruct (valid_settings_ref _ _ _ Hv) as (l & o & -> & Hl & _).
    rewrite (get_prop_reset_sidebar _ _ _ "name" Hl) by discriminate.
    by destruct Hv as (_ & _ & -> & _). }
  rewrite Hkey. split_and!; [reflexivity.. | apply lookup_insert_eq].
Qed.

(** C2, the case the validation misses: [typeof null] is ['object'], so
    [null] passes line 36 and line 42 throws on [settings.name]; the call
    does not return [null].  (The registry is left as it was.) *)
Theorem registerPlugin_null_throws st :
  registerPlugin VNull st = (Throw TypeError, st).
Proof. reflexivity. Qed.

(** Every other argument that fails one of the four checks makes the call
    return [null] with both maps and the heap unchanged. *)
Theorem registerPlugin_invalid_returns_null settings st :
  settings <> VNull ->
  invalid_settings (heap_of st) settings ->
  let out := registerPlugin settings st in
  out.1 = Return VNull /\
  plugins out.2 = plugins st /\
  pluginUIComponents out.2 = pluginUIComponents st /\
  heap_of out.2 = heap_of st.
Proof.
  intros Hnn Hinv out. subst out.
  unfold PluginRegistry.registerPlugin.
  destruct (String.eqb (typeof (heap_of st) settings) "object") eqn:Et; cbn [negb]; [|done].
  apply String.eqb_eq in Et.
  destruct (typeof_object_inv _ _ Et) as [->|[l ->]]; [done|]. cbn [nullish].
  destruct Hinv as [H|[H|[(n & Hn & Hp)|H]]]; [done| | |].
  - destruct (get_prop (heap_of st) (VRef l) "name") eqn:En; simpl in H; done.
  - rewrite Hn, Hp. done.
  - destruct (get_prop (heap_of st) (VRef l) "name") eqn:En; try done.
    destruct (name_pattern_test s); cbn [negb]; [|done].
    destruct (check_duplicate_frame s st) as (Eh & Ep & Eu).
    rewrite Eh, H. cbn [negb fst snd]. unfold console_error. simpl.
    by rewrite Eh, Ep, Eu.
Qed.

(** No path through [registerPlugin] touches the UI-component map. *)
Lemma registerPlugin_components settings st :
  pluginUIComponents (registerPlugin settings st).2 = pluginUIComponents st.
Proof.
  unfold PluginRegistry.registerPlugin.
  destruct (negb _); [done|]. destruct (nullish settings); [done|].
  destruct (get_prop (heap_of st) settings "name") as [| | | |name|]; try done.
  destruct (negb (name_pattern_test name)); [done|].
  destruct (check_duplicate_frame name st) as (_ & _ & Eu).
  destruct (negb (isFunction _ _)); [by rewrite <- Eu|].
  destruct (applyFilters _ _ _ _) as [h3 r].
  destruct (nullish r); by rewrite <- Eu.
Qed.

End RegisterPlugin.

(** With nothing hooked, a successful registration leaves its mark on the
    caller's object: [sidebar] now points to a new empty object, and every
    other property reads as before. *)
Theorem registerPlugin_resets_sidebar ToString settings name st :
  valid_settings (heap_of st) settings name ->
  let out := registerPlugin no_filters ToString settings st in
  exists sidebar,
    get_prop (heap_of out.2) settings "sidebar" = VRef sidebar /\
    heap_of st !! sidebar = None /\
    heap_of out.2 !! sidebar = Some empty_object /\
    (forall k, k <> "sidebar" ->
       get_prop (heap_of out.2) settings k = get_prop (heap_of st) settings k).
Proof.
  intros Hv out. subst out.
  rewrite (registerPlugin_valid_eq _ _ _ _ _ Hv). unfold no_filters. cbv zeta.
  destruct (valid_settings_ref _ _ _ Hv) as (l & o & -> & Hl & _).
  cbn [nullish fst snd heap_of].
  destruct (reset_sidebar_sidebar _ _ _ Hl) as (sb & Hsb & Hnew & Hempty).
  exists sb. split_and!; [done..|].
  intros k Hk. by apply get_prop_reset_sidebar with o.
Qed.

Lemma registerPlugin_resets_sidebar_witness :
  exists sidebar,
    get_prop (heap_of (registerPlugin no_filters ToString_default (VRef 1) fresh_registry).2)
             (VRef 1) "sidebar" = VRef sidebar /\
    heap_of (registerPlugin no_filters ToString_default (VRef 1) fresh_registry).2
      !! sidebar = Some empty_object.
Proof.
  assert (Hv : valid_settings (heap_of fresh_registry) (VRef 1) "my-plugin")
    by (repeat split).
  destruct (registerPlugin_resets_sidebar ToString_default (VRef 1) "my-plugin"
              fresh_registry Hv) as (sb & Hsb & _ & Hempty & _).
  exists sb. split; [exact Hsb | exact Hempty].
Defined.

(** The code of [registerPlugin] itself never writes to the UI-component
    map: the map is the same after the call as before, on every path and
    for every filter that does not call back into the registry.  So the
    own entries of the map are always object references: the map starts
    empty, [registerUIComponent] (under an identifier other than
    [__proto__], which adds no entry in the code) adds a reference to the
    record it allocates, and [registerPlugin] keeps what is there. *)
Theorem components_stay_references :
  (forall applyFilters ToString settings st,
     pluginUIComponents (registerPlugin applyFilters ToString settings st).2
     = pluginUIComponents st) /\
  (forall h out, pluginUIComponents (constructor h out) = ∅ /\
                 components_are_references (constructor h out)) /\
  (forall pluginName uiNamespacedName uiType st,
     uiNamespacedName <> "__proto__" ->
     components_are_references st ->
     components_are_references
       (registerUIComponent pluginName uiNamespacedName uiType st)) /\
  (forall applyFilters ToString settings st,
     components_are_references st ->
     components_are_references (registerPlugin applyFilters ToString settings st).2).
Proof.
  split_and!.
  - intros f ts settings st. apply registerPlugin_components.
  - intros h out. split; [done|]. intros k v. unfold constructor. simpl.
    by rewrite lookup_empty.
  - intros p n t st _ Hst k v. unfold registerUIComponent. simpl.
    destruct (decide (n = k)) as [->|Hne].
    + rewrite lookup_insert_eq. intros [= <-]. eauto.
    + rewrite lookup_insert_ne by done. apply Hst.
  - intros f ts settings st Hst k v. rewrite registerPlugin_components. apply Hst.
Qed.

(** On a fresh registry with nothing hooked, registering the sample
    object at 1 returns that reference and files it under [my-plugin]. *)
Lemma registerPlugin_stores_and_returns_witness :
  (registerPlugin no_filters ToString_default (VRef 1) fresh_registry).1
    = Return (VRef 1) /\
  plugins (registerPlugin no_filters ToString_default (VRef 1) fresh_registry).2
    !! "my-plugin" = Some (VRef 1).
Proof.
  assert (Hv : valid_settings (heap_of fresh_registry) (VRef 1) "my-plugin")
    by (repeat split).
  destruct (registerPlugin_stores_and_returns no_filters ToString_default
              (VRef 1) "my-plugin" fresh_registry _ _ Hv eq_refl eq_refl)
    as (Hret & _ & _ & _ & _ & Hpass).
  destruct (Hpass eq_refl eq_refl) as (_ & _ & Hstored).
  split; [exact Hret | exact Hstored].
Defined.

(** With [my-plugin] already taken by the object at 3, registering the
    object at 1 prints the duplicate error, returns 1 and replaces 3. *)
Lemma registerPlugin_duplicate_proceeds_witness :
  console (registerPlugin no_filters ToString_default (VRef 1) registry_with_plugin).2
    = [msg_duplicate "my-plugin"] /\
  (registerPlugin no_filters ToString_default (VRef 1) registry_with_plugin).1
    = Return (VRef 1) /\
  plugins (registerPlugin no_filters ToString_default (VRef 1) registry_with_plugin).2
    !! "my-plugin" = Some (VRef 1).
Proof.
  assert (Hv : valid_settings (heap_of registry_with_plugin) (VRef 1) "my-plugin")
    by (repeat split).
  destruct (registerPlugin_duplicate_proceeds no_filters ToString_default
              (VRef 1) "my-plugin" (VRef 3) registry_with_plugin _ _
              Hv eq_refl eq_refl eq_refl eq_refl)
    as (Hlog & Hret & _ & Hpass).
  destruct (Hpass eq_refl eq_refl) as (_ & _ & Hstored).
  split; [exact Hlog | split; [exact Hret | exact Hstored]].
Defined.

(** The object at 4 is named [My-Plugin], which the pattern rejects. *)
Lemma registerPlugin_invalid_returns_null_witness :
  (registerPlugin no_filters ToString_default (VRef 4) fresh_registry).1
    = Return VNull /\
  plugins (registerPlugin no_filters ToString_default (VRef 4) fresh_registry).2
    = plugins fresh_registry.
Proof.
  assert (Hne : VRef 4 <> VNull) by discriminate.
  assert (Hinv : invalid_settings (heap_of fresh_registry) (VRef 4)).
  { right. right. left. exists "My-Plugin". split; reflexivity. }
  destruct (registerPlugin_invalid_returns_null no_filters ToString_default
              (VRef 4) fresh_registry Hne Hinv) as (Hret & Hplugins & _).
  split; [exact Hret | exact Hplugins].
Defined.

(** ** registerUIComponent and getRegisteredUIComponent *)

Example inherited_name_sample :
  map inherited_name ["my-plugin/sidebar"; "sidebar"; "constructor"; "toString"; "__proto__"]
  = [false; false; true; true; true].
Proof. reflexivity. Qed.

(** C4: right after [registerUIComponent( pluginName, id, uiType )], looking
    [id] up without a type (argument omitted, or [null]) gives a reference
    to a record allocated by that call, holding exactly [pluginName] and
    [uiType]; and a registration under another identifier in between does
    not change that. *)
Theorem registerUIComponent_roundtrip pluginName uiNamespacedName uiType st :
  let record :=
    Object false (<["uiType" := uiType]> (<["pluginName" := pluginName]> ∅)) in
  let st' := registerUIComponent pluginName uiNamespacedName uiType st in
  exists l,
    getRegisteredUIComponent uiNamespacedName VUndefined st' = VRef l /\
    getRegisteredUIComponent uiNamespacedName VNull st' = VRef l /\
    heap_of st !! l = None /\
    heap_of st' !! l = Some record /\
    get_prop (heap_of st') (VRef l) "pluginName" = pluginName /\
    get_prop (heap_of st') (VRef l) "uiType" = uiType /\
    (forall pluginName' other uiType', other <> uiNamespacedName ->
       let st'' := registerUIComponent pluginName' other uiType' st' in
       getRegisteredUIComponent uiNamespacedName VNull st'' = VRef l /\
       heap_of st'' !! l = Some record).
Proof.
  intros record st'. exists (alloc (heap_of st) record).1.
  pose proof (alloc_fresh (heap_of st) record) as Hfresh.
  assert (Hl : heap_of st' !! (alloc (heap_of st) record).1 = Some record).
  { simpl. apply lookup_insert_eq. }
  assert (Hget : forall t, truthy t = false -> t <> VUndefined \/ t = VUndefined ->
             getRegisteredUIComponent uiNamespacedName t st' =
             VRef (alloc (heap_of st) record).1).
  { intros t Ht _. unfold getRegisteredUIComponent, read. simpl pluginUIComponents.
    rewrite lookup_insert_eq. simpl.
    destruct t; simpl in *; try reflexivity; by rewrite Ht. }
  split_and!; try done.
  - apply Hget; auto.
  - apply Hget; auto.
  - unfold get_prop. rewrite Hl. simpl.
    rewrite lookup_insert_ne by done. by rewrite lookup_insert_eq.
  - unfold get_prop. rewrite Hl. simpl. by rewrite lookup_insert_eq.
  - intros p' other t' Hne st''. split.
    + unfold getRegisteredUIComponent, read. simpl pluginUIComponents.
      rewrite lookup_insert_ne by done. rewrite lookup_insert_eq. reflexivity.
    + subst st''. unfold registerUIComponent at 1. cbn [heap_of].
      apply alloc_lookup_old, Hl.
Qed.



End PluginRegistryFacts.

(* ===================================================================== *)
(** * Properties of the view-options menu                                 *)
(* ===================================================================== *)

Module ViewActionsFacts.
Import JS ViewActions.

Lemma includes_spec (l : list string) x : includes l x = true <-> x ∈ l.
Proof.
  unfold includes. rewrite existsb_exists. split.
  - intros (y & Hy & E). apply String.eqb_eq in E. subst. by apply list_elem_of_In.
  - intros H. exists x. split; [by apply list_elem_of_In | apply String.eqb_refl].
Qed.

Lemma includes_false (l : list string) x : includes l x = false <-> x ∉ l.
Proof.
  rewrite <- includes_spec. destruct (includes l x); split; congruence.
Qed.

Lemma not_false_spec x : not_false x = true <-> x <> Some false.
Proof. destruct x as [[]|]; simpl; split; congruence. Qed.

Lemma layout_value_spec v :
  (String.eqb v "list" || String.eqb v "grid" || String.eqb v "table") = true
  <-> v ∈ LAYOUT_TYPES.
Proof.
  unfold LAYOUT_TYPES. rewrite !orb_true_iff, !String.eqb_eq.
  rewrite !elem_of_cons, elem_of_nil. tauto.
Qed.

(** ** The menus on the sample data *)

Example ViewTypeMenu_sample :
  (fun m => (m.1, map item_key m.2, map item_checked m.2))
    <$> ViewTypeMenu record_view sample_layouts sample_view None
  = Some (Some "Table", ["table"; "grid"; "list"], [true; false; false]).
Proof. reflexivity. Qed.

Example ViewTypeMenu_single_layout :
  (fun m => map item_key m.2)
    <$> ViewTypeMenu record_view sample_layouts sample_view (Some ["table"])
  = None.
Proof. reflexivity. Qed.

Example ViewTypeMenu_select_grid :
  ViewTypeMenu_onChange record_view sample_grid_view "table" []
  = Done [ {| type := "table"; layout := ∅; perPage := Some 20%Z;
              page := Some 2%Z; sort := None; hiddenFields := None;
              rest := tt |} ].
Proof. reflexivity. Qed.

Example ViewTypeMenu_select_unknown :
  ViewTypeMenu_onChange record_view sample_view "kanban" []
  = Thrown (Error "Invalid dataview") [].
Proof. reflexivity. Qed.

Example PageSizeMenu_sample :
  map item_label (PageSizeMenu record_view sample_view).2 = ["10"; "20"; "50"; "100"] /\
  map item_checked (PageSizeMenu record_view sample_view).2 = [false; true; false; false] /\
  PageSizeMenu_onChange record_view sample_view 50 []
  = Done [ {| type := "table"; layout := ∅; perPage := Some 50%Z;
              page := Some 1%Z;
              sort := Some {| field := "title"; direction := "asc" |};
              hiddenFields := Some ["author"; "date"]; rest := tt |} ].
Proof. vm_compute. split_and!; reflexivity. Qed.

Example FieldsVisibilityMenu_sample :
  (fun items => (map item_key items, map item_checked items))
    <$> FieldsVisibilityMenu record_view sample_view sample_fields
  = Some (["author"; "image"; "date"], [false; true; false]) /\
  (fun items => (map item_key items, map item_checked items))
    <$> FieldsVisibilityMenu record_view sample_grid_view sample_fields
  = Some (["author"; "date"], [true; true]) /\
  (fun items => map item_key items)
    <$> FieldsVisibilityMenu record_view sample_view (take 1 sample_fields)
  = None.
Proof. vm_compute. split_and!; reflexivity. Qed.

Example SortMenu_sample :
  (fun m => (m.1, map sub_key m.2,
             map (fun sub => map item_key (sub_items sub)) m.2,
             map (fun sub => map item_checked (sub_items sub)) m.2))
    <$> SortMenu record_view ["asc"; "desc"] (fun d => d) sample_fields sample_view
  = Some (Some "Title", ["title"; "author"; "date"],
          [["title-asc"; "title-desc"]; ["author-asc"; "author-desc"];
           ["date-asc"; "date-desc"]],
          [[true; false]; [false; false]; [false; false]]).
Proof. vm_compute. reflexivity. Qed.

Example toggle_field_removes_every_occurrence :
  toggled_hiddenFields
    {| type := "table"; layout := ∅; perPage := None; page := None; sort := None;
       hiddenFields := Some ["author"; "date"; "author"]; rest := tt |}
    "author"
  = ["date"].
Proof. reflexivity. Qed.

Example toggle_field_sample :
  map (toggled_hiddenFields sample_view) ["author"; "title"]
  = [["date"]; ["author"; "date"; "title"]] /\
  toggled_hiddenFields sample_grid_view "author" = ["author"].
Proof. vm_compute. split; reflexivity. Qed.

Section Components.

Context {Rest World : Type}.
Variable onChangeView : View Rest -> World -> World.
Variable VIEW_LAYOUTS : list ViewLayout.
Variable SORTING_DIRECTIONS : list string.
Variable sortLabels : string -> string.

(** ** ViewTypeMenu *)

Lemma ViewTypeMenu_onChange_valid view value w :
  value ∈ LAYOUT_TYPES ->
  ViewTypeMenu_onChange onChangeView view value w =
  Done (onChangeView
          {| type := value; layout := ∅; perPage := perPage view;
             page := page view; sort := sort view;
             hiddenFields := hiddenFields view; rest := rest view |} w).
Proof.
  intros Hv. unfold ViewTypeMenu_onChange.
  by apply layout_value_spec in Hv as ->.
Qed.

Lemma ViewTypeMenu_onChange_invalid view value w :
  value ∉ LAYOUT_TYPES ->
  ViewTypeMenu_onChange onChangeView view value w = Thrown (Error "Invalid dataview") w.
Proof.
  intros Hv. unfold ViewTypeMenu_onChange.
  destruct (_ || _) eqn:E; [|done]. by apply layout_value_spec in E.
Qed.

Lemma ViewTypeMenu_items view supportedLayouts suffix items item :
  ViewTypeMenu onChangeView VIEW_LAYOUTS view supportedLayouts = Some (suffix, items) ->
  item ∈ items ->
  exists availableView,
    availableView ∈ availableViews VIEW_LAYOUTS supportedLayouts /\
    item_key item = layout_type availableView /\
    item_select item = ViewTypeMenu_onChange onChangeView view (layout_type availableView).
Proof.
  unfold ViewTypeMenu. destruct (_ =? 1)%nat; [discriminate|].
  intros [= _ <-] Hin. apply list_elem_of_In, in_map_iff in Hin as (av & <- & Hav).
  exists av. by rewrite list_elem_of_In.
Qed.

(** C7: on one of ['list'], ['grid'], ['table'] the handler calls
    [onChangeView] once, with the previous view whose [type] is the
    selected value and whose [layout] is [{}]; on any other value it throws
    [Error( 'Invalid dataview' )] without calling [onChangeView]; and when
    every available layout has one of the three types, no item of the
    rendered menu throws. *)
Theorem ViewTypeMenu_switch_layout view w :
  (forall value, value ∈ LAYOUT_TYPES ->
     exists view',
       ViewTypeMenu_onChange onChangeView view value w = Done (onChangeView view' w) /\
       type view' = value /\ layout view' = ∅ /\ same_but_layout view view') /\
  (forall value, value ∉ LAYOUT_TYPES ->
     ViewTypeMenu_onChange onChangeView view value w
     = Thrown (Error "Invalid dataview") w) /\
  (forall supportedLayouts suffix items item,
     Forall (fun v => layout_type v ∈ LAYOUT_TYPES)
            (availableViews VIEW_LAYOUTS supportedLayouts) ->
     ViewTypeMenu onChangeView VIEW_LAYOUTS view supportedLayouts = Some (suffix, items) ->
     item ∈ items ->
     exists view',
       item_select item w = Done (onChangeView view' w) /\
       type view' = item_key item /\ layout view' = ∅ /\ same_but_layout view view').
Proof.
  split_and!.
  - intros value Hv. eexists. split; [by apply ViewTypeMenu_onChange_valid|].
    by repeat split.
  - intros value Hv. by apply ViewTypeMenu_onChange_invalid.
  - intros sl suffix items item Hall Hmenu Hin.
    destruct (ViewTypeMenu_items _ _ _ _ _ Hmenu Hin) as (av & Hav & Hkey & Hsel).
    rewrite Forall_forall in Hall. specialize (Hall av Hav).
    eexists. rewrite Hsel, Hkey. split; [by apply ViewTypeMenu_onChange_valid|].
    by repeat split.
Qed.

(** ** PageSizeMenu *)

Lemma PageSizeMenu_items view item :
  item ∈ (PageSizeMenu onChangeView view).2 ->
  exists size,
    size ∈ PAGE_SIZE_VALUES /\ item_label item = pretty size /\
    item_select item = PageSizeMenu_onChange onChangeView view size.
Proof.
  unfold PageSizeMenu. cbn [snd]. intros Hin.
  apply list_elem_of_In, in_map_iff in Hin as (size & <- & Hsize).
  exists size. by rewrite list_elem_of_In.
Qed.

Lemma PageSizeMenu_onChange_frame view size w :
  exists view',
    PageSizeMenu_onChange onChangeView view size w = Done (onChangeView view' w) /\
    perPage view' = Some size /\ page view' = Some 1%Z /\
    same_but_paging view view'.
Proof. eexists. split; [reflexivity|]. by repeat split. Qed.

(** C9: the menu has one item per size 10, 20, 50, 100, and selecting the
    item of [size] calls [onChangeView] with the view whose [perPage] is
    [size] and whose [page] is 1, whatever the current view, with nothing
    else changed. *)
Theorem PageSizeMenu_resets_page view :
  PAGE_SIZE_VALUES = [10; 20; 50; 100]%Z /\
  map item_select (PageSizeMenu onChangeView view).2
  = map (PageSizeMenu_onChange onChangeView view) PAGE_SIZE_VALUES /\
  (forall size w,
     exists view',
       PageSizeMenu_onChange onChangeView view size w = Done (onChangeView view' w) /\
       perPage view' = Some size /\ page view' = Some 1%Z /\
       same_but_paging view view') /\
  (forall item, item ∈ (PageSizeMenu onChangeView view).2 ->
     exists size, size ∈ PAGE_SIZE_VALUES /\ item_label item = pretty size /\
       forall w, exists view',
         item_select item w = Done (onChangeView view' w) /\
         perPage view' = Some size /\ page view' = Some 1%Z /\
         same_but_paging view view').
Proof.
  split_and!; [reflexivity | reflexivity | apply PageSizeMenu_onChange_frame |].
  intros item Hin.
  destruct (PageSizeMenu_items view item Hin) as (size & Hsize & Hlabel & ->).
  exists size. split_and!; [done | done |].
  intros w. apply PageSizeMenu_onChange_frame.
Qed.

(** ** FieldsVisibilityMenu and SortMenu: which fields are offered *)

Lemma hidableFields_spec fields (view : View Rest) f :
  f ∈ hidableFields fields view <->
  f ∈ fields /\ enableHiding f <> Some false /\
  layout view !! "mediaField" <> Some (VStr (id f)).
Proof.
  unfold hidableFields. rewrite list_elem_of_filter, andb_true_iff, not_false_spec.
  unfold strict_eq. rewrite negb_true_iff, bool_decide_eq_false.
  assert (VStr (id f) = default VUndefined (layout view !! "mediaField")
          <-> layout view !! "mediaField" = Some (VStr (id f))) as ->.
  { destruct (layout view !! "mediaField"); simpl; split; congruence. }
  tauto.
Qed.

Lemma sortableFields_spec fields f :
  f ∈ sortableFields fields <-> f ∈ fields /\ enableSorting f <> Some false.
Proof.
  unfold sortableFields. rewrite list_elem_of_filter, not_false_spec. tauto.
Qed.

Lemma length_zero_nil {A} (l : list A) : (length l =? 0)%nat = true <-> l = [].
Proof. destruct l; simpl; split; congruence. Qed.

(** C8: the fields menu offers, in their order, exactly the fields whose
    [enableHiding] is not [false] and whose [id] is not the view's
    [layout.mediaField]; the sort menu offers exactly the fields whose
    [enableSorting] is not [false]; and each renders nothing exactly when
    it has no field to offer. *)
Theorem menus_offer_filtered_fields fields (view : View Rest) :
  (forall f, f ∈ hidableFields fields view <->
     f ∈ fields /\ enableHiding f <> Some false /\
     layout view !! "mediaField" <> Some (VStr (id f))) /\
  hidableFields fields view `sublist_of` fields /\
  (FieldsVisibilityMenu onChangeView view fields = None
   <-> hidableFields fields view = []) /\
  (forall items, FieldsVisibilityMenu onChangeView view fields = Some items ->
     map item_key items = map id (hidableFields fields view) /\
     map item_label items = map header (hidableFields fields view)) /\
  (forall f, f ∈ sortableFields fields <->
     f ∈ fields /\ enableSorting f <> Some false) /\
  sortableFields fields `sublist_of` fields /\
  (SortMenu onChangeView SORTING_DIRECTIONS sortLabels fields view = None
   <-> sortableFields fields = []) /\
  (forall suffix subs,
     SortMenu onChangeView SORTING_DIRECTIONS sortLabels fields view = Some (suffix, subs) ->
     map sub_key subs = map id (sortableFields fields) /\
     map sub_label subs = map header (sortableFields fields)).
Proof.
  split_and!.
  - apply hidableFields_spec.
  - apply sublist_filter.
  - unfold FieldsVisibilityMenu. rewrite <- length_zero_nil.
    by destruct (_ =? 0)%nat.
  - unfold FieldsVisibilityMenu. intros items.
    destruct (_ =? 0)%nat; [discriminate|]. intros [= <-].
    by rewrite !map_map.
  - apply sortableFields_spec.
  - apply sublist_filter.
  - unfold SortMenu. rewrite <- length_zero_nil. by destruct (_ =? 0)%nat.
  - unfold SortMenu. intros suffix subs.
    destruct (_ =? 0)%nat; [discriminate|]. intros [= _ <-].
    by rewrite !map_map.
Qed.

(** ** Every handler hands [onChangeView] the old view with a few fields replaced *)

Lemma SortMenu_items fields view suffix subs sub item :
  SortMenu onChangeView SORTING_DIRECTIONS sortLabels fields view = Some (suffix, subs) ->
  sub ∈ subs -> item ∈ sub_items sub ->
  exists f direction,
    f ∈ sortableFields fields /\ direction ∈ SORTING_DIRECTIONS /\
    item_select item = SortMenu_onChange onChangeView view f direction.
Proof.
  unfold SortMenu. destruct (_ =? 0)%nat; [discriminate|].
  intros [= _ <-] Hsub Hitem.
  apply list_elem_of_In, in_map_iff in Hsub as (f & <- & Hf).
  cbn [sub_items] in Hitem.
  apply list_elem_of_In, in_map_iff in Hitem as (d & <- & Hd).
  exists f, d. by rewrite !list_elem_of_In.
Qed.

Lemma FieldsVisibilityMenu_items fields view items item :
  FieldsVisibilityMenu onChangeView view fields = Some items ->
  item ∈ items ->
  exists f,
    f ∈ hidableFields fields view /\
    item_select item = FieldsVisibilityMenu_onChange onChangeView view f.
Proof.
  unfold FieldsVisibilityMenu. destruct (_ =? 0)%nat; [discriminate|].
  intros [= <-] Hitem.
  apply list_elem_of_In, in_map_iff in Hitem as (f & <- & Hf).
  exists f. by rewrite list_elem_of_In.
Qed.

(** C6: selecting any item of the rendered menus calls [onChangeView] once
    with a record equal to the current view except for the fields of that
    interaction: a sort item replaces [sort] by the item's field and
    direction; a field item replaces [hiddenFields] by the toggled list; a
    page-size item replaces [perPage] and [page]; a layout item of one of
    the three accepted types replaces [type] and [layout]. *)
Theorem interactions_replace_view fields view w :
  (forall suffix subs sub item,
     SortMenu onChangeView SORTING_DIRECTIONS sortLabels fields view = Some (suffix, subs) ->
     sub ∈ subs -> item ∈ sub_items sub ->
     exists f direction view',
       f ∈ fields /\ direction ∈ SORTING_DIRECTIONS /\
       item_select item w = Done (onChangeView view' w) /\
       sort view' = Some {| field := id f; direction := direction |} /\
       same_but_sort view view') /\
  (forall items item,
     FieldsVisibilityMenu onChangeView view fields = Some items ->
     item ∈ items ->
     exists f view',
       f ∈ fields /\
       item_select item w = Done (onChangeView view' w) /\
       hiddenFields view' = Some (toggled_hiddenFields view (id f)) /\
       same_but_hiddenFields view view') /\
  (forall item, item ∈ (PageSizeMenu onChangeView view).2 ->
     exists view',
       item_select item w = Done (onChangeView view' w) /\
       same_but_paging view view') /\
  (forall supportedLayouts suffix items item,
     ViewTypeMenu onChangeView VIEW_LAYOUTS view supportedLayouts = Some (suffix, items) ->
     item ∈ items -> item_key item ∈ LAYOUT_TYPES ->
     exists view',
       item_select item w = Done (onChangeView view' w) /\
       same_but_layout view view').
Proof.
  split_and!.
  - intros suffix subs sub item Hmenu Hsub Hitem.
    destruct (SortMenu_items _ _ _ _ _ _ Hmenu Hsub Hitem) as (f & d & Hf & Hd & ->).
    apply sortableFields_spec in Hf as [Hf _].
    exists f, d. eexists. split_and!; [done | done | reflexivity | reflexivity |].
    by repeat split.
  - intros items item Hmenu Hitem.
    destruct (FieldsVisibilityMenu_items _ _ _ _ Hmenu Hitem) as (f & Hf & ->).
    apply hidableFields_spec in Hf as [Hf _].
    exists f. eexists. split_and!; [done | reflexivity | reflexivity |].
    by repeat split.
  - intros item Hitem.
    destruct (PageSizeMenu_items view item Hitem) as (size & _ & _ & ->).
    destruct (PageSizeMenu_onChange_frame view size w) as (view' & ? & _ & _ & ?).
    eauto.
  - intros sl suffix items item Hmenu Hitem Hkey.
    destruct (ViewTypeMenu_items _ _ _ _ _ Hmenu Hitem) as (av & _ & Ek & ->).
    rewrite Ek in Hkey. eexists.
    split; [by apply ViewTypeMenu_onChange_valid|]. by repeat split.
Qed.

End Components.

(** ** Toggling a field *)

Section Toggle.

Context {Rest : Type}.
Implicit Types (view : View Rest) (fid : string).

Lemma toggled_absent view fid :
  fid ∉ hidden_ids view ->
  toggled_hiddenFields view fid = (hidden_ids view ++ [fid])%list.
Proof.
  unfold toggled_hiddenFields, hidden_ids.
  destruct (hiddenFields view) as [hidden|]; simpl; [|done].
  intros H. apply includes_false in H. by rewrite H.
Qed.

Lemma toggled_present view fid :
  fid ∈ hidden_ids view ->
  toggled_hiddenFields view fid
  = filter (fun i => negb (String.eqb i fid) = true) (hidden_ids view).
Proof.
  unfold toggled_hiddenFields, hidden_ids.
  destruct (hiddenFields view) as [hidden|]; simpl.
  - intros H. apply includes_spec in H. by rewrite H.
  - by intros ?%elem_of_nil.
Qed.

Lemma elem_of_without (l : list string) fid x :
  x ∈ filter (fun i => negb (String.eqb i fid) = true) l <-> x ∈ l /\ x <> fid.
Proof.
  rewrite list_elem_of_filter, negb_true_iff, String.eqb_neq. tauto.
Qed.

Lemma without_absent (l : list string) fid :
  fid ∉ l -> filter (fun i => negb (String.eqb i fid) = true) l = l.
Proof.
  induction l as [|a l IH]; [done|].
  rewrite not_elem_of_cons. intros [Hne Hl].
  rewrite filter_cons_True; [by rewrite IH|].
  apply negb_true_iff, String.eqb_neq. congruence.
Qed.

Lemma hidden_ids_toggle view fid :
  hidden_ids (toggle_field view fid) = toggled_hiddenFields view fid.
Proof. reflexivity. Qed.

(** C10: whatever the list, one toggle appends the id when the view does
    not hide it, and when it does the new list is the old one without any
    occurrence of the id (the other ids in their order); two toggles of the
    same id give back a list with exactly the ids of the original; and on a
    list without duplicates the result of two toggles is a rearrangement of
    the original, again without duplicates. *)
Theorem toggle_field_twice view fid :
  (fid ∉ hidden_ids view ->
     hidden_ids (toggle_field view fid) = (hidden_ids view ++ [fid])%list) /\
  (fid ∈ hidden_ids view ->
     hidden_ids (toggle_field view fid)
     = filter (fun i => negb (String.eqb i fid) = true) (hidden_ids view) /\
     (fid ∉ hidden_ids (toggle_field view fid)) /\
     (forall x, x ∈ hidden_ids (toggle_field view fid)
                <-> x ∈ hidden_ids view /\ x <> fid)) /\
  (forall x, x ∈ hidden_ids (toggle_field (toggle_field view fid) fid)
             <-> x ∈ hidden_ids view) /\
  (NoDup (hidden_ids view) ->
     (hidden_ids (toggle_field (toggle_field view fid) fid) ≡ₚ hidden_ids view) /\
     NoDup (hidden_ids (toggle_field view fid)) /\
     NoDup (hidden_ids (toggle_field (toggle_field view fid) fid))).
Proof.
  assert (Hone_absent : forall v : View Rest, fid ∉ hidden_ids v ->
            hidden_ids (toggle_field v fid) = (hidden_ids v ++ [fid])%list).
  { intros v Hv. by rewrite hidden_ids_toggle, toggled_absent. }
  assert (Hone_present : forall v : View Rest, fid ∈ hidden_ids v ->
            hidden_ids (toggle_field v fid)
            = filter (fun i => negb (String.eqb i fid) = true) (hidden_ids v)).
  { intros v Hv. by rewrite hidden_ids_toggle, toggled_present. }
  assert (Htwice : forall x, x ∈ hidden_ids (toggle_field (toggle_field view fid) fid)
                             <-> x ∈ hidden_ids view).
  { intros x. destruct (decide (fid ∈ hidden_ids view)) as [Hin|Hout].
    - rewrite Hone_absent; rewrite (Hone_present view Hin).
      + rewrite elem_of_app, elem_of_without, list_elem_of_singleton.
        destruct (decide (x = fid)) as [->|]; tauto.
      + rewrite elem_of_without. tauto.
    - rewrite Hone_present; rewrite (Hone_absent view Hout).
      + rewrite filter_app, without_absent by done.
        rewrite filter_cons_False, filter_nil, app_nil_r; [done|].
        rewrite String.eqb_refl. simpl. congruence.
      + rewrite elem_of_app, list_elem_of_singleton. tauto. }
  assert (Hnodup : forall v : View Rest, NoDup (hidden_ids v) ->
            NoDup (hidden_ids (toggle_field v fid))).
  { intros v Hnd. destruct (decide (fid ∈ hidden_ids v)) as [Hin|Hout].
    - rewrite (Hone_present v Hin). by apply NoDup_filter.
    - rewrite (Hone_absent v Hout). apply NoDup_app.
      split_and!; [done | | apply NoDup_singleton].
      intros x Hx ->%list_elem_of_singleton. done. }
  split_and!.
  - apply Hone_absent.
  - intros Hin. rewrite (Hone_present view Hin). split_and!; [done | |].
    + rewrite elem_of_without. tauto.
    + intros x. apply elem_of_without.
  - exact Htwice.
  - intros Hnd. split_and!.
    + apply NoDup_Permutation; [by apply Hnodup, Hnodup | done | exact Htwice].
    + by apply Hnodup.
    + by apply Hnodup, Hnodup.
Qed.

End Toggle.

(** Hiding and showing [author] again on the sample view, and the other
    way round for [title]. *)
Lemma toggle_field_twice_witness :
  (hidden_ids (toggle_field (toggle_field sample_view "author") "author")
     ≡ₚ ["author"; "date"]) /\
  hidden_ids (toggle_field sample_view "title") = ["author"; "date"; "title"].
Proof.
  assert (Hnd : NoDup (hidden_ids sample_view))
    by (apply (bool_decide_unpack _); vm_compute; exact I).
  destruct (toggle_field_twice sample_view "author") as (_ & _ & _ & Hdup).
  destruct (Hdup Hnd) as (Hperm & _).
  destruct (toggle_field_twice sample_view "title") as (Habsent & _).
  split; [exact Hperm|].
  apply Habsent. apply (bool_decide_unpack _). vm_compute. exact I.
Defined.

End ViewActionsFacts.

(* ===================================================================== *)
(** * Further properties of the plugin registry                           *)
(* ===================================================================== *)

Module PluginRegistryMoreFacts.
Import JS PluginRegistry PluginStatics PluginRegistryFacts.

(** ** The heap after line 66 *)

Lemma reset_sidebar_unfold h settings :
  reset_sidebar h settings
  = set_prop (<[fresh (dom h) := empty_object]> h) settings "sidebar"
             (VRef (fresh (dom h))).
Proof. reflexivity. Qed.

Lemma fresh_not_allocated (h : heap) : h !! fresh (dom h) = None.
Proof. apply not_elem_of_dom, is_fresh. Qed.

(** Line 66 changes what no property read other than [sidebar] gives, on
    any value. *)
Lemma get_prop_reset_sidebar_any h settings v k :
  k <> "sidebar" -> get_prop (reset_sidebar h settings) v k = get_prop h v k.
Proof.
  intros Hk. rewrite reset_sidebar_unfold.
  pose proof (fresh_not_allocated h) as Hf. set (sb := fresh (dom h)) in *.
  assert (Hmid : get_prop (<[sb := empty_object]> h) v k = get_prop h v k).
  { destruct v as [| | | | |l']; try reflexivity. simpl.
    destruct (decide (sb = l')) as [<-|Hne].
    - by rewrite lookup_insert_eq, Hf.
    - by rewrite lookup_insert_ne. }
  rewrite <- Hmid.
  destruct settings as [| | | | |l]; try reflexivity.
  destruct v as [| | | | |l']; try reflexivity.
  unfold set_prop. destruct (<[sb:=empty_object]> h !! l) as [o|] eqn:El; [|done].
  simpl. destruct (decide (l = l')) as [<-|Hne].
  - rewrite lookup_insert_eq, El. simpl. by rewrite lookup_insert_ne.
  - by rewrite lookup_insert_ne.
Qed.

Lemma lookup_reset_sidebar_other h l l' o' :
  h !! l' = Some o' -> l' <> l -> reset_sidebar h (VRef l) !! l' = Some o'.
Proof.
  intros Hl' Hne. rewrite reset_sidebar_unfold.
  pose proof (fresh_not_allocated h) as Hf. set (sb := fresh (dom h)) in *.
  assert (Hsb : sb <> l') by congruence.
  unfold set_prop. destruct (<[sb:=empty_object]> h !! l) as [o|] eqn:El.
  - rewrite lookup_insert_ne by done. by rewrite lookup_insert_ne.
  - by rewrite lookup_insert_ne.
Qed.

Lemma lookup_reset_sidebar_self h l o :
  h !! l = Some o ->
  exists ps, reset_sidebar h (VRef l) !! l = Some (Object (callable o) ps).
Proof.
  intros Hl. rewrite reset_sidebar_unfold.
  pose proof (fresh_not_allocated h) as Hf. set (sb := fresh (dom h)) in *.
  assert (Hsb : sb <> l) by congruence.
  unfold set_prop. rewrite lookup_insert_ne by done. rewrite Hl.
  rewrite lookup_insert_eq. eauto.
Qed.

(** Settings that pass validation still pass it after line 66. *)
Lemma valid_settings_reset_sidebar h settings name :
  valid_settings h settings name ->
  valid_settings (reset_sidebar h settings) settings name.
Proof.
  intros Hv. destruct (valid_settings_ref _ _ _ Hv) as (l & o & -> & Hl & Hc).
  destruct Hv as (Ht & Hn & Hname & Hpat & Hfun).
  destruct (lookup_reset_sidebar_self _ _ _ Hl) as (ps & Hself).
  split_and!; try done.
  - simpl. by rewrite Hself; simpl; rewrite Hc.
  - by rewrite get_prop_reset_sidebar_any.
  - rewrite get_prop_reset_sidebar_any by done.
    destruct (get_prop h (VRef l) "render") as [| | | | |f]; try done.
    simpl in *. destruct (h !! f) as [fo|] eqn:Ef; [|done].
    assert (f <> l) by (intros ->; congruence).
    by rewrite (lookup_reset_sidebar_other _ _ _ _ Ef).
Qed.

(** ** What registerPlugin can do at all *)

Section AnyFilters.

Variable applyFilters : string -> value -> value -> heap -> heap * value.
Variable ToString : heap -> value -> string.

Abbreviation registerPlugin := (PluginRegistry.registerPlugin applyFilters ToString).

(** An argument other than [null] either fails one of the four checks or
    passes them all. *)
Lemma settings_valid_or_invalid h settings :
  settings <> VNull ->
  invalid_settings h settings \/ exists name, valid_settings h settings name.
Proof.
  intros Hnn. unfold invalid_settings, valid_settings.
  destruct (decide (typeof h settings = "object")) as [Ht|Ht]; [|by left; left].
  destruct (typeof_object_inv _ _ Ht) as [->|[l ->]]; [done|].
  destruct (get_prop h (VRef l) "name") as [| |b|n|name|l'] eqn:En;
    try (left; right; left; simpl; try discriminate;
         by destruct (h !! l') as [o'|]; [destruct (callable o')|]).
  destruct (name_pattern_test name) eqn:Hp; [|left; right; right; left; eauto].
  destruct (isFunction h (get_prop h (VRef l) "render")) eqn:Hf.
  - right. exists name. by split_and!.
  - left. by right; right; right.
Qed.

(** The console only grows, by at most two lines. *)
Lemma check_duplicate_console name st :
  console (check_duplicate name st) = console st \/
  console (check_duplicate name st) = (console st ++ [msg_duplicate name])%list.
Proof. unfold check_duplicate. destruct (truthy _); auto. Qed.

(** A [null] result is never silent: whenever [registerPlugin] returns
    [null], whatever is hooked, it has printed at least one error, the last
    one naming the check that failed, and it has changed neither the maps
    nor the heap. *)
Theorem registerPlugin_null_is_reported settings st :
  (registerPlugin settings st).1 = Return VNull ->
  let out := registerPlugin settings st in
  (exists earlier failure,
     console out.2 = (console st ++ earlier ++ [failure])%list /\
     failure ∈ [msg_no_settings; msg_name_type; msg_name_pattern; msg_render]) /\
  plugins out.2 = plugins st /\
  pluginUIComponents out.2 = pluginUIComponents st /\
  heap_of out.2 = heap_of st.
Proof.
  unfold PluginRegistry.registerPlugin.
  destruct (negb _).
  { intros _. split_and!; try done. exists [], msg_no_settings. split; [done|set_solver]. }
  destruct (nullish settings); [discriminate|].
  destruct (get_prop (heap_of st) settings "name") as [| | | |name|];
    try (intros _; split_and!; try done;
         exists [], msg_name_type; split; [done|set_solver]).
  destruct (negb (name_pattern_test name)).
  { intros _. split_and!; try done. exists [], msg_name_pattern. split; [done|set_solver]. }
  destruct (check_duplicate_frame name st) as (Eh & Ep & Eu).
  destruct (negb (isFunction _ _)).
  { intros _. cbn [fst snd]. unfold console_error at 1 2 3 4. cbn [console plugins pluginUIComponents heap_of].
    split_and!; try done.
    destruct (check_duplicate_console name st) as [-> | ->].
    - exists [], msg_render. split; [done|set_solver].
    - exists [msg_duplicate name], msg_render. split; [by rewrite <- app_assoc|set_solver]. }
  destruct (applyFilters _ _ _ _) as [h3 r].
  destruct (nullish r) eqn:Hr; [discriminate|].
  intros [= ->]. discriminate.
Qed.

(** The plugins map changes in one way only: by storing the value the
    call returns, which is never [undefined] or [null]. *)
Lemma registerPlugin_plugins_cases settings st :
  plugins (registerPlugin settings st).2 = plugins st \/
  exists key r,
    nullish r = false /\ (registerPlugin settings st).1 = Return r /\
    plugins (registerPlugin settings st).2 = <[key := r]> (plugins st).
Proof.
  unfold PluginRegistry.registerPlugin.
  destruct (negb _); [by left|]. destruct (nullish settings); [by left|].
  destruct (get_prop (heap_of st) settings "name") as [| | | |name|]; try by left.
  destruct (negb (name_pattern_test name)); [by left|].
  destruct (check_duplicate_frame name st) as (_ & Ep & _).
  destruct (negb (isFunction _ _)); [by left|].
  destruct (applyFilters _ _ _ _) as [h3 r].
  destruct (nullish r) eqn:Hr; [by left|].
  right. eexists _, r. cbn [fst snd plugins]. by rewrite Ep.
Qed.

End AnyFilters.

(** The plugins map never holds [undefined] or [null], so reading
    [plugin.name] for an entry, as [PluginArea] does, cannot throw: this is
    so after the constructor and stays so through [registerUIComponent] and
    through [registerPlugin], whatever is hooked. *)
Theorem plugins_stay_readable :
  (forall h out, plugins_are_readable (constructor h out)) /\
  (forall pluginName uiNamespacedName uiType st,
     plugins_are_readable st ->
     plugins_are_readable (registerUIComponent pluginName uiNamespacedName uiType st)) /\
  (forall applyFilters ToString settings st,
     plugins_are_readable st ->
     plugins_are_readable
       (PluginRegistry.registerPlugin applyFilters ToString settings st).2).
Proof.
  split_and!.
  - intros h out k v. unfold constructor. simpl. by rewrite lookup_empty.
  - intros p n t st Hst k v. apply Hst.
  - intros f ts settings st Hst k v.
    destruct (registerPlugin_plugins_cases f ts settings st)
      as [-> | (key & r & Hr & _ & ->)]; [apply Hst|].
    destruct (decide (key = k)) as [->|Hne].
    + rewrite lookup_insert_eq. by intros [= <-].
    + rewrite lookup_insert_ne by done. apply Hst.
Qed.

(** The object at 4 is rejected for its name: one line is printed and the
    registry stays as it was. *)
Lemma registerPlugin_null_is_reported_witness :
  (exists earlier failure,
     console (PluginRegistry.registerPlugin no_filters ToString_default (VRef 4)
                                            fresh_registry).2
     = (console fresh_registry ++ earlier ++ [failure])%list /\
     failure ∈ [msg_no_settings; msg_name_type; msg_name_pattern; msg_render]) /\
  plugins (PluginRegistry.registerPlugin no_filters ToString_default (VRef 4)
                                         fresh_registry).2
  = plugins fresh_registry.
Proof.
  destruct (registerPlugin_null_is_reported no_filters ToString_default (VRef 4)
              fresh_registry eq_refl) as (Hconsole & Hplugins & _).
  split; [exact Hconsole | exact Hplugins].
Defined.

(** ** With nothing hooked *)

Section NothingHooked.

Variable ToString : heap -> value -> string.

Abbreviation registerPlugin0 := (PluginRegistry.registerPlugin no_filters ToString).

Lemma registerPlugin0_rejects settings st :
  settings <> VNull -> invalid_settings (heap_of st) settings ->
  exists msgs,
    registerPlugin0 settings st
    = (Return VNull,
       State (heap_of st) (plugins st) (pluginUIComponents st)
             (console st ++ msgs)).
Proof.
  intros Hnn Hinv. unfold PluginRegistry.registerPlugin.
  destruct (String.eqb (typeof (heap_of st) settings) "object") eqn:Et; cbn [negb];
    [|by eexists].
  apply String.eqb_eq in Et.
  destruct (typeof_object_inv _ _ Et) as [->|[l ->]]; [done|]. cbn [nullish].
  destruct Hinv as [H|[H|[(n & Hn & Hp)|H]]]; [done| | |].
  - destruct (get_prop (heap_of st) (VRef l) "name") eqn:En; simpl in H;
      try done; by eexists.
  - rewrite Hn, Hp. by eexists.
  - destruct (get_prop (heap_of st) (VRef l) "name") eqn:En; try by eexists.
    destruct (name_pattern_test s); cbn [negb]; [|by eexists].
    destruct (check_duplicate_frame s st) as (Eh & Ep & Eu).
    rewrite Eh, H. cbn [negb]. unfold console_error. rewrite Eh, Ep, Eu.
    destruct (check_duplicate_console s st) as [-> | ->]; [by eexists|].
    rewrite <- app_assoc. by eexists.
Qed.

Lemma registerPlugin0_accepts settings name st :
  valid_settings (heap_of st) settings name ->
  registerPlugin0 settings st
  = (Return settings,
     State (reset_sidebar (heap_of st) settings)
           (<[name := settings]> (plugins st))
           (pluginUIComponents st)
           (console (check_duplicate name st))).
Proof.
  intros Hv. rewrite (registerPlugin_valid_eq _ _ _ _ _ Hv).
  unfold no_filters. cbv zeta.
  destruct (valid_settings_ref _ _ _ Hv) as (l & o & -> & Hl & _).
  cbn [nullish].
  rewrite get_prop_reset_sidebar_any by done.
  by destruct Hv as (_ & _ & -> & _).
Qed.

(** For the arguments of this model (primitives, [undefined], [null],
    functions and extensible objects with writable data properties; a
    frozen or non-extensible settings object, on which line 66 throws, is
    not among them), and with nothing hooked, a call ends in one of three
    ways: it throws, which happens for [null] and changes nothing; it returns
    [null], for every other argument that fails a check, leaving the
    plugins map alone; or it returns the very object it was given, now
    filed under its name. *)
Theorem registerPlugin_outcomes settings st :
  let out := registerPlugin0 settings st in
  (settings = VNull /\ out = (Throw TypeError, st)) \/
  (settings <> VNull /\ invalid_settings (heap_of st) settings /\
   out.1 = Return VNull /\ plugins out.2 = plugins st) \/
  (exists name,
     valid_settings (heap_of st) settings name /\
     out.1 = Return settings /\
     plugins out.2 = <[name := settings]> (plugins st)).
Proof.
  intros out. subst out.
  destruct (decide (settings = VNull)) as [->|Hnn]; [by left|].
  right. destruct (settings_valid_or_invalid (heap_of st) settings Hnn)
    as [Hinv|(name & Hv)].
  - left. destruct (registerPlugin0_rejects _ _ Hnn Hinv) as (msgs & ->). done.
  - right. exists name. by rewrite (registerPlugin0_accepts _ _ _ Hv).
Qed.

Lemma registerPlugin0_heap settings st :
  heap_of (registerPlugin0 settings st).2 = heap_of st \/
  heap_of (registerPlugin0 settings st).2 = reset_sidebar (heap_of st) settings.
Proof.
  destruct (decide (settings = VNull)) as [->|Hnn]; [by left|].
  destruct (settings_valid_or_invalid (heap_of st) settings Hnn)
    as [Hinv|(name & Hv)].
  - left. by destruct (registerPlugin0_rejects _ _ Hnn Hinv) as (msgs & ->).
  - right. by rewrite (registerPlugin0_accepts _ _ _ Hv).
Qed.

(** What a UI-component lookup answers depends on the component map and
    on the [uiType] properties in the heap only. *)
Lemma getRegisteredUIComponent_ext uiNamespacedName uiType st st' :
  pluginUIComponents st' = pluginUIComponents st ->
  (forall v, get_prop (heap_of st') v "uiType" = get_prop (heap_of st) v "uiType") ->
  getRegisteredUIComponent uiNamespacedName uiType st'
  = getRegisteredUIComponent uiNamespacedName uiType st.
Proof.
  intros Hc Hh. unfold getRegisteredUIComponent. by rewrite Hc, Hh.
Qed.

(** With nothing hooked, registering a plugin never changes what any
    UI-component lookup answers, whatever the argument and whether or not
    the registration succeeds. *)
Theorem registerPlugin_keeps_components settings st uiNamespacedName uiType :
  getRegisteredUIComponent uiNamespacedName uiType (registerPlugin0 settings st).2
  = getRegisteredUIComponent uiNamespacedName uiType st.
Proof.
  apply getRegisteredUIComponent_ext.
  - apply registerPlugin_components.
  - intros v. destruct (registerPlugin0_heap settings st) as [-> | ->]; [done|].
    by apply get_prop_reset_sidebar_any.
Qed.

(** With nothing hooked, registering the same valid settings object a
    second time is reported but harmless: the second call prints the
    duplicate-name error and nothing else, returns the same object, and
    leaves the plugins map exactly as the first call left it. *)
Theorem registerPlugin_twice settings name st :
  valid_settings (heap_of st) settings name ->
  let first := registerPlugin0 settings st in
  let second := registerPlugin0 settings first.2 in
  first.1 = Return settings /\
  second.1 = Return settings /\
  plugins second.2 = plugins first.2 /\
  pluginUIComponents second.2 = pluginUIComponents st /\
  console second.2 = (console first.2 ++ [msg_duplicate name])%list.
Proof.
  intros Hv first second. subst second first.
  rewrite (registerPlugin0_accepts _ _ _ Hv). cbn [fst snd].
  set (st1 := State _ _ _ _).
  assert (Hv1 : valid_settings (heap_of st1) settings name)
    by (by apply valid_settings_reset_sidebar).
  rewrite (registerPlugin0_accepts _ _ _ Hv1). cbn [fst snd plugins pluginUIComponents console].
  split_and!; try done.
  - subst st1. cbn [plugins]. by rewrite insert_insert_eq.
  - destruct (valid_settings_ref _ _ _ Hv) as (l & o & -> & _).
    unfold check_duplicate at 1, read. subst st1. cbn [plugins].
    by rewrite lookup_insert_eq.
Qed.

End NothingHooked.

Lemma registerPlugin_twice_witness :
  (PluginRegistry.registerPlugin no_filters ToString_default (VRef 1)
     (PluginRegistry.registerPlugin no_filters ToString_default (VRef 1)
                                    fresh_registry).2).1
  = Return (VRef 1) /\
  console (PluginRegistry.registerPlugin no_filters ToString_default (VRef 1)
     (PluginRegistry.registerPlugin no_filters ToString_default (VRef 1)
                                    fresh_registry).2).2
  = (console (PluginRegistry.registerPlugin no_filters ToString_default (VRef 1)
                                            fresh_registry).2
     ++ [msg_duplicate "my-plugin"])%list.
Proof.
  assert (Hv : valid_settings (heap_of fresh_registry) (VRef 1) "my-plugin")
    by (repeat split).
  destruct (registerPlugin_twice ToString_default (VRef 1) "my-plugin"
              fresh_registry Hv) as (_ & Hret & _ & _ & Hconsole).
  split; [exact Hret | exact Hconsole].
Defined.

(** ** UI components *)

(** The record of lines 81-84. *)
Abbreviation component_record pluginName uiType :=
  (Object false (<["uiType" := uiType]> (<["pluginName" := pluginName]> ∅))).

Lemma registerUIComponent_entry pluginName uiNamespacedName uiType st :
  let st' := registerUIComponent pluginName uiNamespacedName uiType st in
  exists l,
    heap_of st !! l = None /\
    pluginUIComponents st' = <[uiNamespacedName := VRef l]> (pluginUIComponents st) /\
    heap_of st' !! l = Some (component_record pluginName uiType) /\
    get_prop (heap_of st') (VRef l) "pluginName" = pluginName /\
    get_prop (heap_of st') (VRef l) "uiType" = uiType.
Proof.
  intros st'. exists (fresh (dom (heap_of st))).
  assert (Hl : heap_of st' !! fresh (dom (heap_of st))
               = Some (component_record pluginName uiType))
    by apply lookup_insert_eq.
  split_and!; [apply fresh_not_allocated | done | done | |].
  - unfold get_prop. rewrite Hl. simpl.
    rewrite lookup_insert_ne by done. by rewrite lookup_insert_eq.
  - unfold get_prop. rewrite Hl. simpl. by rewrite lookup_insert_eq.
Qed.

Lemma getRegisteredUIComponent_entry uiNamespacedName uiType st l :
  pluginUIComponents st !! uiNamespacedName = Some (VRef l) ->
  getRegisteredUIComponent uiNamespacedName uiType st
  = if truthy uiType
    then if bool_decide (get_prop (heap_of st) (VRef l) "uiType" = uiType)
         then VRef l else VNull
    else VRef l.
Proof.
  intros Hl. unfold getRegisteredUIComponent, read, strict_eq. rewrite Hl.
  cbn [default truthy andb].
  destruct uiType; try reflexivity.
Qed.

(** A lookup by type finds a component under its own type only: after
    [registerUIComponent( pluginName, id, uiType )], asking for [id] with a
    truthy type gives the new record when the type is [uiType] itself and
    [null] for every other type.  A component registered with a falsy
    [uiType] is therefore found by no lookup that names a type. *)
Theorem registerUIComponent_typed_lookup pluginName uiNamespacedName uiType st :
  let st' := registerUIComponent pluginName uiNamespacedName uiType st in
  exists l,
    heap_of st' !! l = Some (component_record pluginName uiType) /\
    (forall asked, truthy asked = true ->
       getRegisteredUIComponent uiNamespacedName asked st'
       = if bool_decide (asked = uiType) then VRef l else VNull) /\
    (truthy uiType = false ->
     forall asked, truthy asked = true ->
       getRegisteredUIComponent uiNamespacedName asked st' = VNull).
Proof.
  intros st'.
  destruct (registerUIComponent_entry pluginName uiNamespacedName uiType st)
    as (l & _ & Hmap & Hrec & _ & Htype). fold st' in Hmap, Hrec, Htype.
  assert (Hl : pluginUIComponents st' !! uiNamespacedName = Some (VRef l))
    by (rewrite Hmap; apply lookup_insert_eq).
  assert (Hasked : forall asked, truthy asked = true ->
            getRegisteredUIComponent uiNamespacedName asked st'
            = if bool_decide (asked = uiType) then VRef l else VNull).
  { intros asked Ha. rewrite (getRegisteredUIComponent_entry _ _ _ _ Hl), Ha, Htype.
    by repeat case_bool_decide. }
  exists l. split_and!; [done | done |].
  intros Hfalsy asked Ha. rewrite (Hasked asked Ha).
  case_bool_decide; [congruence | done].
Qed.

(** Registering twice under one identifier keeps the later registration
    only: the lookup gives the second record, with the second plugin name
    and type, and the map has no more keys than after the first call. *)
Theorem registerUIComponent_overwrites pluginName1 uiType1 pluginName2 uiType2
    uiNamespacedName st :
  let st1 := registerUIComponent pluginName1 uiNamespacedName uiType1 st in
  let st2 := registerUIComponent pluginName2 uiNamespacedName uiType2 st1 in
  exists l1 l2,
    l1 <> l2 /\
    getRegisteredUIComponent uiNamespacedName VNull st1 = VRef l1 /\
    getRegisteredUIComponent uiNamespacedName VNull st2 = VRef l2 /\
    get_prop (heap_of st2) (VRef l2) "pluginName" = pluginName2 /\
    get_prop (heap_of st2) (VRef l2) "uiType" = uiType2 /\
    dom (pluginUIComponents st2) = dom (pluginUIComponents st1) /\
    (forall other, other <> uiNamespacedName ->
       pluginUIComponents st2 !! other = pluginUIComponents st !! other).
Proof.
  intros st1 st2.
  destruct (registerUIComponent_entry pluginName1 uiNamespacedName uiType1 st)
    as (l1 & _ & Hmap1 & Hrec1 & _). fold st1 in Hmap1, Hrec1.
  destruct (registerUIComponent_entry pluginName2 uiNamespacedName uiType2 st1)
    as (l2 & Hfresh2 & Hmap2 & _ & Hname2 & Htype2). fold st2 in Hmap2, Hname2, Htype2.
  exists l1, l2. split_and!; try done.
  - intros ->. congruence.
  - rewrite (getRegisteredUIComponent_entry _ _ _ l1); [done|].
    rewrite Hmap1. apply lookup_insert_eq.
  - rewrite (getRegisteredUIComponent_entry _ _ _ l2); [done|].
    rewrite Hmap2. apply lookup_insert_eq.
  - by rewrite Hmap2, Hmap1, insert_insert_eq, !dom_insert_L.
  - intros other Hne. rewrite Hmap2, Hmap1. by rewrite !lookup_insert_ne.
Qed.

(** ** PluginArea *)

(** The context a plugin's fills are rendered in carries the plugin's own
    name: for settings registered with nothing hooked, the provider's key
    and namespace are the registered name, and a component that registers
    itself through the context's [registerUIComponent] is then found under
    its identifier with that name as [pluginName]. *)
Theorem PluginArea_context_is_bound ToString settings name st :
  valid_settings (heap_of st) settings name ->
  let out := PluginRegistry.registerPlugin no_filters ToString settings st in
  let provider := provider_of (heap_of out.2) settings in
  plugins out.2 !! name = Some settings /\
  provider_key provider = VStr name /\
  namespace (provider_value provider) = VStr name /\
  (forall uiNamespacedName uiType st',
     let st'' := context_registerUIComponent (provider_value provider)
                   uiNamespacedName uiType st' in
     exists l,
       getRegisteredUIComponent uiNamespacedName VNull st'' = VRef l /\
       get_prop (heap_of st'') (VRef l) "pluginName" = VStr name /\
       get_prop (heap_of st'') (VRef l) "uiType" = uiType).
Proof.
  intros Hv out provider. subst provider out.
  rewrite (registerPlugin0_accepts _ _ _ _ Hv). cbn [fst snd plugins heap_of].
  assert (Hname : get_prop (reset_sidebar (heap_of st) settings) settings "name"
                  = VStr name).
  { rewrite get_prop_reset_sidebar_any by done. by destruct Hv as (_ & _ & -> & _). }
  unfold provider_of. cbn [provider_key provider_value namespace context_registerUIComponent].
  rewrite Hname. split_and!; [apply lookup_insert_eq | done | done |].
  intros n t st'.
  destruct (registerUIComponent_entry (VStr name) n t st')
    as (l & _ & Hmap & _ & Hp & Ht).
  exists l. split_and!; [|done|done].
  rewrite (getRegisteredUIComponent_entry _ _ _ l); [done|].
  rewrite Hmap. apply lookup_insert_eq.
Qed.

Lemma PluginArea_context_is_bound_witness :
  namespace (provider_value
    (provider_of
       (heap_of (PluginRegistry.registerPlugin no_filters ToString_default (VRef 1)
                                               fresh_registry).2)
       (VRef 1)))
  = VStr "my-plugin".
Proof.
  assert (Hv : valid_settings (heap_of fresh_registry) (VRef 1) "my-plugin")
    by (repeat split).
  destruct (PluginArea_context_is_bound ToString_default (VRef 1) "my-plugin"
              fresh_registry Hv) as (_ & _ & Hns & _).
  exact Hns.
Defined.

(** ** The singleton *)

Lemma new_PluginRegistry_fresh c :
  registries c !! (new_PluginRegistry c).1 = None /\
  (new_PluginRegistry c).2 !! (new_PluginRegistry c).1 = Some (Registry ∅ ∅) /\
  (forall l r, registries c !! l = Some r -> (new_PluginRegistry c).2 !! l = Some r).
Proof.
  unfold new_PluginRegistry. cbn [fst snd].
  assert (Hf : registries c !! fresh (dom (registries c)) = None)
    by apply not_elem_of_dom, is_fresh.
  split_and!; [done | apply lookup_insert_eq |].
  intros l r Hl. rewrite lookup_insert_ne; [done|]. congruence.
Qed.

(** [getInstance] makes a registry once and then keeps answering with it:
    calling it again gives the same reference and changes nothing, an
    existing instance is returned as it is, and no registry made earlier is
    lost or altered. *)
Theorem getInstance_is_stable c :
  let first := getInstance c in
  getInstance first.2 = first /\
  instance first.2 = Some first.1 /\
  (forall l, instance c = Some l -> first = (l, c)) /\
  (instance c = None ->
     registries c !! first.1 = None /\
     registries first.2 !! first.1 = Some (Registry ∅ ∅)) /\
  (forall l r, registries c !! l = Some r -> registries first.2 !! l = Some r).
Proof.
  intros first. subst first. unfold getInstance.
  destruct (new_PluginRegistry_fresh c) as (Hf & Hnew & Hold).
  destruct (instance c) as [l|] eqn:Ei; cbn [fst snd].
  - rewrite Ei. split_and!; try done. by intros l' [= ->].
  - destruct (new_PluginRegistry c) as [l rs]. cbn [fst snd instance registries] in *.
    by split_and!.
Qed.

(** [resetInstance] starts over: it answers with a registry that did not
    exist before and whose two maps have no entry, so a UI-component lookup
    on it gives [null] for every identifier that is not the name of a
    member inherited from [Object.prototype]; [getInstance] answers with
    that registry from then on; and the registry that was the instance
    before is still there, unchanged, for whoever holds it. *)
Theorem resetInstance_starts_over c :
  let reset := resetInstance c in
  registries c !! reset.1 = None /\
  registries reset.2 !! reset.1 = Some (Registry ∅ ∅) /\
  instance reset.2 = Some reset.1 /\
  getInstance reset.2 = reset /\
  (forall h out uiNamespacedName uiType,
     registry_state h out (Registry ∅ ∅) = constructor h out /\
     (inherited_name uiNamespacedName = false ->
      getRegisteredUIComponent uiNamespacedName uiType
                               (registry_state h out (Registry ∅ ∅))
      = VNull)) /\
  (forall l r, registries c !! l = Some r ->
     l <> reset.1 /\ registries reset.2 !! l = Some r).
Proof.
  intros reset. subst reset. unfold resetInstance.
  destruct (new_PluginRegistry_fresh c) as (Hf & Hnew & Hold).
  destruct (new_PluginRegistry c) as [l rs]. cbn [fst snd instance registries] in *.
  split_and!; try done.
  - intros h out n t. split; [done|]. intros _.
    unfold getRegisteredUIComponent, read, registry_state.
    cbn [pluginUIComponents registry_components]. rewrite lookup_empty. simpl.
    by destruct (truthy _).
  - intros l' r Hl'. split; [congruence | by apply Hold].
Qed.

End PluginRegistryMoreFacts.

(* ===================================================================== *)
(** * Further properties of the view-options menu                         *)
(* ===================================================================== *)

Module ViewActionsMoreFacts.
Import JS ViewActions ViewActionsTop ViewActionsFacts.

(** ** Which checkbox a field toggle flips *)

Section Hidden.

Context {Rest : Type}.
Implicit Types (view : View Rest) (fid x : string).

Lemma is_hidden_toggled view fid x :
  is_hidden (toggle_field view fid) x = true
  <-> x ∈ toggled_hiddenFields view fid.
Proof. unfold is_hidden. cbn [hiddenFields toggle_field]. apply includes_spec. Qed.

Lemma is_hidden_ids view x : is_hidden view x = true <-> x ∈ hidden_ids view.
Proof.
  unfold is_hidden, hidden_ids. destruct (hiddenFields view); simpl.
  - apply includes_spec.
  - rewrite elem_of_nil. split; [discriminate | tauto].
Qed.

Lemma is_hidden_toggle view fid x :
  is_hidden (toggle_field view fid) x
  = if decide (x = fid) then negb (is_hidden view fid) else is_hidden view x.
Proof.
  apply Bool.eq_iff_eq_true. rewrite is_hidden_toggled.
  destruct (decide (fid ∈ hidden_ids view)) as [Hin|Hout].
  - rewrite (toggled_present view fid Hin), elem_of_without.
    apply is_hidden_ids in Hin as Hh.
    destruct (decide (x = fid)) as [->|Hne].
    + rewrite Hh. simpl. split; [tauto | discriminate].
    + rewrite is_hidden_ids. tauto.
  - rewrite (toggled_absent view fid Hout), elem_of_app, list_elem_of_singleton.
    assert (Hh : is_hidden view fid = false).
    { destruct (is_hidden view fid) eqn:E; [|done]. by apply is_hidden_ids in E. }
    destruct (decide (x = fid)) as [->|Hne].
    + rewrite Hh. simpl. tauto.
    + rewrite is_hidden_ids. tauto.
Qed.


(** Which fields end up hidden does not depend on the order in which two
    fields are toggled (the order of the list may). *)
Theorem field_toggles_commute view f g x :
  is_hidden (toggle_field (toggle_field view f) g) x
  = is_hidden (toggle_field (toggle_field view g) f) x.
Proof.
  rewrite !is_hidden_toggle.
  repeat (destruct (decide _)); subst; try done.
Qed.

End Hidden.


(** ** Which radio item the sort menu checks *)

Section Sorting.

Context {Rest World : Type}.
Variable onChangeView : View Rest -> World -> World.
Variable SORTING_DIRECTIONS : list string.
Variable sortLabels : string -> string.

Abbreviation SortMenu' := (SortMenu onChangeView SORTING_DIRECTIONS sortLabels).

Lemma find_first_with_id (fields : list NormalizedField) (wanted : option string) :
  match find (fun g => bool_decide (Some (id g) = wanted)) fields with
  | Some f0 => f0 ∈ fields /\ Some (id f0) = wanted
  | None => forall g, g ∈ fields -> Some (id g) <> wanted
  end.
Proof.
  destruct (find _ fields) as [f0|] eqn:E.
  - apply find_some in E as [Hin Hb]. apply bool_decide_eq_true in Hb.
    by rewrite list_elem_of_In.
  - intros g Hg. apply list_elem_of_In in Hg.
    pose proof (find_none _ _ E g Hg) as Hb. by apply bool_decide_eq_false in Hb.
Qed.

Lemma find_first_split {A} (p : A -> bool) (l : list A) x :
  find p l = Some x ->
  exists before after,
    l = (before ++ x :: after)%list /\ p x = true /\
    forall y, y ∈ before -> p y = false.
Proof.
  induction l as [|a l IH]; [discriminate|]. simpl.
  destruct (p a) eqn:Ea.
  - intros [= ->]. exists [], l. split_and!; [done | done |].
    by intros y ?%elem_of_nil.
  - intros Hfind. destruct (IH Hfind) as (before & after & -> & Hx & Hbefore).
    exists (a :: before), after. split_and!; [done | done |].
    intros y [->|Hy]%elem_of_cons; [done | by apply Hbefore].
Qed.

Lemma SortMenu_rendered_item oc fields (view : View Rest) suffix subs sub
    (item : @Item (View Rest)) :
  SortMenu oc SORTING_DIRECTIONS sortLabels fields view = Some (suffix, subs) ->
  sub ∈ subs -> item ∈ sub_items sub ->
  exists f direction,
    f ∈ sortableFields fields /\ direction ∈ SORTING_DIRECTIONS /\
    sub_key sub = id f /\
    item_key item = id f ++ "-" ++ direction /\
    item_select item = SortMenu_onChange oc view f direction.
Proof.
  unfold SortMenu. destruct (_ =? 0)%nat; [discriminate|].
  intros [= _ <-] Hsub Hitem.
  apply list_elem_of_In, in_map_iff in Hsub as (f & <- & Hf).
  cbn [sub_items] in Hitem.
  apply list_elem_of_In, in_map_iff in Hitem as (d & <- & Hd).
  exists f, d. by rewrite !list_elem_of_In.
Qed.

(** Selecting any item of the rendered sort menu and rendering the menu
    again from the view the host was handed: the item is that of a
    sortable field [f] and a direction, named by its key; the new view is
    sorted by them; the new menu checks exactly the items of that field id
    and that direction; and its trigger shows the header of the first field
    of [fields] with that id (no field before it has the id). *)
Theorem sort_selection_is_shown fields (view : View Rest) suffix0 subs0 sub item
    view' suffix subs :
  SortMenu keep_view SORTING_DIRECTIONS sortLabels fields view = Some (suffix0, subs0) ->
  sub ∈ subs0 -> item ∈ sub_items sub ->
  item_select item view = Done view' ->
  SortMenu' fields view' = Some (suffix, subs) ->
  exists f direction,
    f ∈ sortableFields fields /\ direction ∈ SORTING_DIRECTIONS /\
    sub_key sub = id f /\
    item_key item = id f ++ "-" ++ direction /\
    sort view' = Some {| ViewActions.field := id f;
                         ViewActions.direction := direction |} /\
    (exists before f0 after,
       fields = (before ++ f0 :: after)%list /\
       id f0 = id f /\
       (forall g, g ∈ before -> id g <> id f) /\
       suffix = Some (header f0)) /\
    map (fun sub => map item_checked (sub_items sub)) subs
    = map (fun g => map (fun d => bool_decide (id g = id f /\ d = direction))
                        SORTING_DIRECTIONS)
          (sortableFields fields).
Proof.
  intros Hmenu Hsub Hitem Hselect.
  destruct (SortMenu_rendered_item _ _ _ _ _ _ _ Hmenu Hsub Hitem)
    as (f & direction & Hf & Hd & Hsubkey & Hkey & Hsel).
  rewrite Hsel in Hselect. unfold SortMenu_onChange, keep_view in Hselect.
  injection Hselect as <-.
  assert (Hfields : f ∈ fields) by (by apply sortableFields_spec in Hf as [? _]).
  unfold SortMenu. destruct (_ =? 0)%nat; [discriminate|].
  cbn [sort fmap option_fmap option_map ViewActions.field ViewActions.direction].
  pose proof (find_first_with_id fields (Some (id f))) as Hfind.
  destruct (find _ fields) as [f0|] eqn:E; [|by destruct (Hfind f Hfields)].
  destruct Hfind as [Hin Hid]. injection Hid as Hid.
  intros [= <- <-]. exists f, direction.
  split_and!; [done | done | done | done | done | |].
  - destruct (find_first_split _ _ _ E) as (before & after & Hsplit & _ & Hbefore).
    exists before, f0, after. split_and!; [done | done | | done].
    intros g Hg Heq. specialize (Hbefore g Hg).
    apply bool_decide_eq_false in Hbefore. apply Hbefore. by rewrite Heq.
  - rewrite map_map. apply map_ext. intros g. cbn [sub_items].
    rewrite map_map. apply map_ext. intros d. cbn [item_checked].
    rewrite Hid. apply Bool.eq_iff_eq_true.
    rewrite andb_true_iff, !bool_decide_eq_true, String.eqb_eq.
    split; [intros [[= ->] ->] | intros [-> ->]]; done.
Qed.

(** When the view is not sorted, or is sorted by a field id that no field
    has, the sort menu checks nothing and its trigger shows no field. *)
Theorem sort_unknown_field_is_unchecked fields (view : View Rest) suffix subs :
  (forall g, g ∈ fields -> Some (id g) <> ViewActions.field <$> sort view) ->
  SortMenu' fields view = Some (suffix, subs) ->
  suffix = None /\
  forall sub item, sub ∈ subs -> item ∈ sub_items sub -> item_checked item = false.
Proof.
  intros Hnone. unfold SortMenu. destruct (_ =? 0)%nat; [discriminate|].
  pose proof (find_first_with_id fields (ViewActions.field <$> sort view)) as Hfind.
  destruct (find _ fields) as [f0|] eqn:E.
  - destruct Hfind as [Hin Hid]. by destruct (Hnone f0 Hin).
  - intros [= <- <-]. split; [done|].
    intros sub item Hsub Hitem.
    apply list_elem_of_In, in_map_iff in Hsub as (g & <- & _).
    cbn [sub_items] in Hitem.
    by apply list_elem_of_In, in_map_iff in Hitem as (d & <- & _).
Qed.

(** When the view is sorted by a field that is not sortable (and no
    sortable field shares its id), the trigger still shows that field's
    header, but no item of the menu is checked. *)
Theorem sort_by_unsortable_field fields (view : View Rest) f direction suffix subs :
  f ∈ fields ->
  sort view = Some {| ViewActions.field := id f; ViewActions.direction := direction |} ->
  (forall g, g ∈ sortableFields fields -> id g <> id f) ->
  SortMenu' fields view = Some (suffix, subs) ->
  (exists f0, f0 ∈ fields /\ id f0 = id f /\ suffix = Some (header f0)) /\
  forall sub item, sub ∈ subs -> item ∈ sub_items sub -> item_checked item = false.
Proof.
  intros Hf Hsort Hunsortable. unfold SortMenu.
  destruct (_ =? 0)%nat; [discriminate|]. rewrite Hsort.
  cbn [fmap option_fmap option_map ViewActions.field ViewActions.direction].
  pose proof (find_first_with_id fields (Some (id f))) as Hfind.
  destruct (find _ fields) as [f0|] eqn:E.
  - destruct Hfind as [Hin Hid]. injection Hid as Hid.
    intros [= <- <-]. split; [by exists f0|].
    intros sub item Hsub Hitem.
    apply list_elem_of_In, in_map_iff in Hsub as (g & <- & Hg).
    cbn [sub_items] in Hitem.
    apply list_elem_of_In, in_map_iff in Hitem as (d & <- & _).
    cbn [item_checked]. apply andb_false_iff. right.
    apply String.eqb_neq. rewrite Hid. apply Hunsortable. by apply list_elem_of_In.
  - by destruct (Hfind f Hf).
Qed.

End Sorting.

(** Selecting the second item (descending) of the third submenu (date) of
    the sample view's sort menu: the view is then sorted by date,
    descending, and the trigger shows the header of the date field. *)
Lemma sort_selection_is_shown_witness :
  exists f direction,
    f ∈ sortableFields sample_fields /\ direction ∈ ["asc"; "desc"] /\
    "date" = id f /\ "date-desc" = id f ++ "-" ++ direction /\
    exists before f0 after,
      sample_fields = (before ++ f0 :: after)%list /\
      id f0 = id f /\ Some "Date" = Some (header f0).
Proof.
  pose proof (sort_selection_is_shown keep_view ["asc"; "desc"] (fun d => d)
                sample_fields sample_view) as Hshown.
  edestruct Hshown as (f & direction & Hf & Hd & Hsub & Hkey & _ & Htrigger & _).
  - reflexivity.
  - apply list_elem_of_In. right. right. left. reflexivity.
  - apply list_elem_of_In. right. left. reflexivity.
  - reflexivity.
  - reflexivity.
  - destruct Htrigger as (before & f0 & after & Hsplit & Hid & _ & Hsuffix).
    exists f, direction. split_and!; [exact Hf | exact Hd | exact Hsub | exact Hkey |].
    exists before, f0, after. split_and!; [exact Hsplit | exact Hid | exact Hsuffix].
Defined.

(** The grid sample is not sorted: nothing is shown as the sort field. *)
Lemma sort_unknown_field_is_unchecked_witness :
  fst <$> SortMenu keep_view ["asc"; "desc"] (fun d => d) sample_fields sample_grid_view
  = Some None.
Proof.
  destruct (sort_unknown_field_is_unchecked keep_view ["asc"; "desc"] (fun d => d)
              sample_fields sample_grid_view _ _
              ltac:(intros g _; discriminate) eq_refl) as (Hsuffix & _).
  exact (f_equal Some Hsuffix).
Defined.

(** The sample view sorted by the image field, which cannot be sorted by:
    the trigger shows a field with the id [image]. *)
Lemma sort_by_unsortable_field_witness :
  exists f0, f0 ∈ sample_fields /\ id f0 = "image" /\ Some "Image" = Some (header f0).
Proof.
  assert (Himage : {| id := "image"; header := "Image";
                      enableHiding := Some true; enableSorting := Some false |}
                   ∈ sample_fields).
  { apply list_elem_of_In. simpl. tauto. }
  assert (Hother : forall g, g ∈ sortableFields sample_fields -> id g <> "image").
  { intros g Hg. apply list_elem_of_In in Hg. vm_compute in Hg.
    destruct Hg as [<-|[<-|[<-|[]]]]; discriminate. }
  destruct (sort_by_unsortable_field keep_view ["asc"; "desc"] (fun d => d)
              sample_fields
              {| type := "table"; layout := ∅; perPage := Some 20%Z;
                 page := Some 2%Z;
                 sort := Some {| field := "image"; direction := "asc" |};
                 hiddenFields := None; rest := tt |}
              _ "asc" _ _ Himage eq_refl Hother eq_refl)
    as ((f0 & Hin & Hid & Hsuffix) & _).
  exists f0. split; [exact Hin | split; [exact Hid | exact Hsuffix]].
Defined.

(** ** Page sizes *)

Section PageSize.

Context {Rest World : Type}.
Variable onChangeView : View Rest -> World -> World.

(** The page-size menu shows the current [perPage] on its trigger and
    never checks more than one size; it checks exactly the item of the
    current size when that is one of 10, 20, 50, 100, and none at all for
    any other size or when [perPage] is [undefined]. *)
Theorem PageSizeMenu_checks_current (view : View Rest) :
  let items := (PageSizeMenu onChangeView view).2 in
  (PageSizeMenu onChangeView view).1 = perPage view /\
  (length (List.filter item_checked items) <= 1)%nat /\
  (forall size, size ∈ PAGE_SIZE_VALUES -> perPage view = Some size ->
     map item_checked items = map (fun s => bool_decide (s = size)) PAGE_SIZE_VALUES /\
     length (List.filter item_checked items) = 1%nat) /\
  ((forall size, size ∈ PAGE_SIZE_VALUES -> perPage view <> Some size) ->
   map item_checked items = [false; false; false; false]).
Proof.
  intros items. subst items. unfold PageSizeMenu, PAGE_SIZE_VALUES. cbn [fst snd map item_checked List.filter].
  split_and!.
  - reflexivity.
  - destruct (perPage view) as [z|]; repeat case_bool_decide; simpl; try lia; congruence.
  - intros size Hsize ->. rewrite !elem_of_cons, elem_of_nil in Hsize.
    destruct Hsize as [->|[->|[->|[->|[]]]]]; split; reflexivity.
  - intros Hnone.
    assert (H10 := Hnone 10%Z). assert (H20 := Hnone 20%Z).
    assert (H50 := Hnone 50%Z). assert (H100 := Hnone 100%Z).
    rewrite !bool_decide_eq_false_2; [done|..].
    + apply H100. set_solver.
    + apply H50. set_solver.
    + apply H20. set_solver.
    + apply H10. set_solver.
Qed.

End PageSize.

(** ** The layout menu *)

Lemma filter_eqb_absent {A} (g : A -> string) x (l : list A) :
  x ∉ map g l -> List.filter (fun y => String.eqb (g y) x) l = [].
Proof.
  induction l as [|a l IH]; [done|]. cbn [map List.filter].
  rewrite not_elem_of_cons. intros [Hne Hl].
  destruct (String.eqb (g a) x) eqn:E; [|by apply IH].
  apply String.eqb_eq in E. congruence.
Qed.

Lemma filter_eqb_NoDup {A} (g : A -> string) x (l : list A) :
  NoDup (map g l) -> (length (List.filter (fun y => String.eqb (g y) x) l) <= 1)%nat.
Proof.
  induction l as [|a l IH]; [simpl; lia|]. cbn [map List.filter].
  intros [Ha Hl]%NoDup_cons.
  destruct (String.eqb (g a) x) eqn:E; [|by apply IH].
  apply String.eqb_eq in E. subst x.
  rewrite (filter_eqb_absent g (g a) l Ha). simpl. lia.
Qed.

Section Layouts.

Context {Rest World : Type}.
Variable onChangeView : View Rest -> World -> World.
Variable VIEW_LAYOUTS : list ViewLayout.

Abbreviation ViewTypeMenu' := (ViewTypeMenu onChangeView VIEW_LAYOUTS).
Abbreviation available := (availableViews VIEW_LAYOUTS).

Lemma availableViews_spec supported v :
  v ∈ available (Some supported) <-> v ∈ VIEW_LAYOUTS /\ layout_type v ∈ supported.
Proof.
  unfold availableViews. rewrite list_elem_of_filter, includes_spec. tauto.
Qed.

Lemma find_active (view : View Rest) (l : list ViewLayout) :
  match find (fun v => String.eqb (type view) (layout_type v)) l with
  | Some v => v ∈ l /\ layout_type v = type view
  | None => forall v, v ∈ l -> layout_type v <> type view
  end.
Proof.
  destruct (find _ l) as [v|] eqn:E.
  - apply find_some in E as [Hin Hb]. apply String.eqb_eq in Hb.
    by rewrite list_elem_of_In.
  - intros v Hv. apply list_elem_of_In in Hv.
    pose proof (find_none _ _ E v Hv) as Hb. apply String.eqb_neq in Hb. congruence.
Qed.

(** The layout menu offers the layouts of [VIEW_LAYOUTS] that
    [supportedLayouts] admits (all of them when it is absent), in the order
    of [VIEW_LAYOUTS].  It is left out exactly when one layout is on
    offer; with none on offer it is still rendered, empty.  An item is
    checked exactly when its type is the view's, the trigger names the
    active layout if it is on offer and nothing otherwise, and with
    pairwise distinct layout types at most one item is checked. *)
Theorem ViewTypeMenu_shape (view : View Rest) supportedLayouts :
  available supportedLayouts `sublist_of` VIEW_LAYOUTS /\
  (forall supported v, supportedLayouts = Some supported ->
     (v ∈ available supportedLayouts
      <-> v ∈ VIEW_LAYOUTS /\ layout_type v ∈ supported)) /\
  (supportedLayouts = None -> available supportedLayouts = VIEW_LAYOUTS) /\
  (ViewTypeMenu' view supportedLayouts = None
   <-> length (available supportedLayouts) = 1%nat) /\
  (available supportedLayouts = [] ->
   ViewTypeMenu' view supportedLayouts = Some (None, [])) /\
  (forall suffix items,
     ViewTypeMenu' view supportedLayouts = Some (suffix, items) ->
     map item_key items = map layout_type (available supportedLayouts) /\
     map item_label items = map label (available supportedLayouts) /\
     (forall item, item ∈ items ->
        (item_checked item = true <-> item_key item = type view)) /\
     (suffix = None
      <-> forall v, v ∈ available supportedLayouts -> layout_type v <> type view) /\
     (forall active, suffix = Some active ->
        exists v, v ∈ available supportedLayouts /\
                  layout_type v = type view /\ label v = active) /\
     (NoDup (map layout_type (available supportedLayouts)) ->
      (length (List.filter item_checked items) <= 1)%nat)).
Proof.
  split_and!.
  - destruct supportedLayouts; [apply sublist_filter | done].
  - intros supported v ->. apply availableViews_spec.
  - by intros ->.
  - unfold ViewTypeMenu. destruct (_ =? 1)%nat eqn:E.
    + by apply Nat.eqb_eq in E.
    + apply Nat.eqb_neq in E. split; [discriminate | done].
  - unfold ViewTypeMenu. by intros ->.
  - intros suffix items. unfold ViewTypeMenu.
    destruct (_ =? 1)%nat; [discriminate|]. intros [= <- <-].
    pose proof (find_active view (available supportedLayouts)) as Hfind.
    split_and!.
    + by rewrite map_map.
    + by rewrite map_map.
    + intros item Hitem. apply list_elem_of_In, in_map_iff in Hitem as (v & <- & _).
      cbn [item_checked item_key]. apply String.eqb_eq.
    + destruct (find _ _) as [v|]; simpl.
      * destruct Hfind as [Hin Ht]. split; [discriminate|].
        intros Hnone. by destruct (Hnone v Hin).
      * done.
    + intros active. destruct (find _ _) as [v|]; simpl; [|discriminate].
      intros [= <-]. exists v. by destruct Hfind.
    + intros Hnd. rewrite List.filter_map_swap, length_map. cbn [item_checked].
      apply (filter_eqb_NoDup layout_type (type view)). exact Hnd.
Qed.

(** Switching the layout drops the media field with the rest of the
    layout record: the handler ends normally only on one of the three
    accepted types, the view the host is handed has that type and the empty
    layout, so the fields menu rendered from it offers every field whose
    [enableHiding] is not [false], the former media field included, and
    the layout menu rendered from it checks exactly the items of the
    selected type. *)
Theorem layout_switch_is_shown fields (view : View Rest) value view' supportedLayouts :
  ViewTypeMenu_onChange keep_view view value view = Done view' ->
  value ∈ LAYOUT_TYPES /\
  type view' = value /\
  layout view' = ∅ /\
  (forall g, g ∈ hidableFields fields view'
             <-> g ∈ fields /\ enableHiding g <> Some false) /\
  (forall suffix items,
     ViewTypeMenu' view' supportedLayouts = Some (suffix, items) ->
     forall item, item ∈ items ->
       (item_checked item = true <-> item_key item = value)).
Proof.
  unfold ViewTypeMenu_onChange, keep_view.
  destruct (_ || _) eqn:E; [|discriminate]. apply layout_value_spec in E.
  intros [= <-]. split_and!; try done.
  - intros g. rewrite (hidableFields_spec onChangeView). cbn [layout].
    rewrite lookup_empty.
    split; [tauto | intros [? ?]; by split_and!].
  - intros suffix items. unfold ViewTypeMenu.
    destruct (_ =? 1)%nat; [discriminate|]. intros [= _ <-] item Hitem.
    apply list_elem_of_In, in_map_iff in Hitem as (v & <- & _).
    cbn [item_checked item_key type]. apply String.eqb_eq.
Qed.

End Layouts.

Lemma layout_switch_is_shown_witness :
  "list" ∈ LAYOUT_TYPES /\
  (forall g, g ∈ hidableFields sample_fields
                   {| type := "list"; layout := ∅; perPage := Some 20%Z;
                      page := Some 2%Z; sort := None; hiddenFields := None;
                      rest := tt |}
             <-> g ∈ sample_fields /\ enableHiding g <> Some false).
Proof.
  destruct (layout_switch_is_shown keep_view sample_layouts sample_fields
              sample_grid_view "list" _ None eq_refl)
    as (Hvalue & _ & _ & Hfields & _).
  split; [exact Hvalue | exact Hfields].
Defined.

(** ** The dropdown as a whole *)

Section Dropdown.

Context {Rest World : Type}.
Variable onChangeView : View Rest -> World -> World.
Variable VIEW_LAYOUTS : list ViewLayout.
Variable SORTING_DIRECTIONS : list string.
Variable sortLabels : string -> string.

Lemma nil_iff_no_elem {A} (l : list A) : l = [] <-> forall x, x ∉ l.
Proof.
  split; [intros -> x; apply not_elem_of_nil | apply elem_of_nil_inv].
Qed.

(** Which entries the view-options dropdown has: the page-size menu
    always, with its four sizes; the layout menu unless exactly one layout
    is on offer; the sort menu unless every field has sorting disabled; the
    fields menu unless every field has hiding disabled or is the media
    field of the layout.  With no fields at all only the first two can
    appear. *)
Theorem ViewActions_entries fields (view : View Rest) supportedLayouts :
  let dropdown :=
    _ViewActions onChangeView VIEW_LAYOUTS SORTING_DIRECTIONS sortLabels
                 fields view supportedLayouts in
  length (page_size_menu dropdown).2 = 4%nat /\
  (view_type_menu dropdown = None
   <-> length (availableViews VIEW_LAYOUTS supportedLayouts) = 1%nat) /\
  (sort_menu dropdown = None
   <-> forall f, f ∈ fields -> enableSorting f = Some false) /\
  (fields_visibility_menu dropdown = None
   <-> forall f, f ∈ fields ->
         enableHiding f = Some false \/
         layout view !! "mediaField" = Some (VStr (id f))) /\
  (fields = [] ->
   sort_menu dropdown = None /\ fields_visibility_menu dropdown = None).
Proof.
  intros dropdown. subst dropdown. unfold _ViewActions.
  cbn [page_size_menu view_type_menu sort_menu fields_visibility_menu].
  assert (Hsort : SortMenu onChangeView SORTING_DIRECTIONS sortLabels fields view = None
                  <-> forall f, f ∈ fields -> enableSorting f = Some false).
  { unfold SortMenu. transitivity (sortableFields fields = []).
    - rewrite <- length_zero_nil. by destruct (_ =? 0)%nat.
    - rewrite nil_iff_no_elem. split.
      + intros H f Hf. specialize (H f).
        rewrite sortableFields_spec in H.
        destruct (enableSorting f) as [[]|]; try done; destruct H; by split.
      + intros H f. rewrite sortableFields_spec.
        intros [Hf Hne]. by apply Hne, H. }
  assert (Hfields : FieldsVisibilityMenu onChangeView view fields = None
                    <-> forall f, f ∈ fields ->
                          enableHiding f = Some false \/
                          layout view !! "mediaField" = Some (VStr (id f))).
  { unfold FieldsVisibilityMenu. transitivity (hidableFields fields view = []).
    - rewrite <- length_zero_nil. by destruct (_ =? 0)%nat.
    - rewrite nil_iff_no_elem. split.
      + intros H f Hf. specialize (H f).
        rewrite (hidableFields_spec onChangeView) in H.
        destruct (decide (enableHiding f = Some false)) as [|Hh]; [by left|].
        destruct (decide (layout view !! "mediaField" = Some (VStr (id f))))
          as [|Hm]; [by right|].
        destruct H. by split_and!.
      + intros H f. rewrite (hidableFields_spec onChangeView).
        intros (Hf & Hh & Hm).
        by destruct (H f Hf). }
  split_and!; [reflexivity | | exact Hsort | exact Hfields |].
  - unfold ViewTypeMenu. destruct (_ =? 1)%nat eqn:E.
    + by apply Nat.eqb_eq in E.
    + apply Nat.eqb_neq in E. split; [discriminate | done].
  - intros ->. split; [apply Hsort | apply Hfields]; by intros f ?%elem_of_nil.
Qed.

End Dropdown.

End ViewActionsMoreFacts.
